(** * caddy-exec-stream: the HTTP handler of [middleware.go]

    A shallow embedding of [Middleware.ServeHTTP] and
    [Middleware.runAndCollectOutput].  The handler is effectful: it resolves
    placeholders, launches an operating-system process, writes to the
    response writer, logs, and may call the next handler.  Every such effect
    is recorded, in program order, in a trace; what the outside world answers
    (the replacer, the process, the response writer, the next handler) is read
    from a [World] value, so that the handler is an executable function of the
    configuration and the world.

    The embedding follows the handler that has the foreground mode: the
    branch on [m.Foreground] in [ServeHTTP] and [runAndCollectOutput].  The
    helper [m.run] of [Cmd] is not part of [middleware.go]; the handler only
    looks at whether it returns nil or an error, and that answer is part of
    the world. *)

From Stdlib Require Import ZArith Lia Ascii String DecimalString.
From stdpp Require Import base tactics option list strings.

Local Open Scope string_scope.
Local Open Scope list_scope.
Local Open Scope Z_scope.

(** ** Configuration: the fields of [Cmd] that [middleware.go] reads *)

Record Cmd := mkCmd {
  Command : string;          (* m.Command *)
  Args : list string;        (* m.Args *)
  Directory : string;        (* m.Directory *)
  Foreground : bool;         (* m.Foreground *)
  PassThru : bool;           (* m.PassThru *)
  Stream : bool;             (* m.Stream *)
  timeout : Z                (* m.timeout, a time.Duration *)
}.

(** ** Errors *)

(** [os.ProcessState] of a process that has terminated. *)
Inductive ProcessState :=
| Exited (code : Z)
| Signaled (signal : string).

(** [ProcessState.Success]. *)
Definition Success (st : ProcessState) : bool :=
  match st with
  | Exited 0 => true
  | _ => false
  end.

(** [ProcessState.ExitCode]: -1 when the process was terminated by a signal. *)
Definition ExitCode (st : ProcessState) : Z :=
  match st with
  | Exited code => code
  | Signaled _ => -1
  end.

(** Go's [error] values, told apart by where the handler obtains them. *)
Inductive error :=
| PipeError (msg : string)        (* cmd.StdoutPipe / cmd.StderrPipe *)
| StartError (msg : string)       (* cmd.Start, or the start step of cmd.Run *)
| ExitError (st : ProcessState)   (* *exec.ExitError, from cmd.Wait / cmd.Run *)
| WaitError (msg : string)        (* any other error of cmd.Wait / cmd.Run *)
| RunError (msg : string)         (* returned by the helper m.run *)
| WriteError (msg : string)       (* writing the response failed *)
| NextError (msg : string).       (* returned by next.ServeHTTP *)

Definition itoa (z : Z) : string := NilZero.string_of_int (Z.to_int z).

(** [err.Error()]. *)
Definition Error_ (e : error) : string :=
  match e with
  | ExitError (Exited code) => "exit status " +:+ itoa code
  | ExitError (Signaled sig) => "signal: " +:+ sig
  | PipeError msg | StartError msg | WaitError msg
  | RunError msg | WriteError msg | NextError msg => msg
  end.



(** ** Cancellation scopes ([context.Context]) *)

Inductive Context :=
| RequestCtx                               (* r.Context() *)
| WithTimeout (parent : Context) (d : Z).  (* context.WithTimeout(parent, d) *)



(** ** Processes *)

(** What [exec.CommandContext(ctx, m.Command, argv...)] with [cmd.Dir] set
    describes. *)
Record Launch := mkLaunch {
  l_ctx : Context;
  l_command : string;
  l_argv : list string;
  l_dir : string
}.

(** How [cmd.Wait] ends once the process has been started. *)
Inductive WaitResult :=
| Completed (st : ProcessState)
| WaitFailed (msg : string).

(** The error of [cmd.Wait]: nil exactly for a process that exited with
    status 0. *)
Definition Wait_err (r : WaitResult) : option error :=
  match r with
  | Completed st => if Success st then None else Some (ExitError st)
  | WaitFailed msg => Some (WaitError msg)
  end.

(** What the operating system does with one launch.  The process is one that
    terminates, by itself or because its scope ended; [p_stdout] and
    [p_stderr] are everything it wrote to the two channels until then, and
    [p_sched] is the order in which the scheduler lets the two reader
    goroutines take their steps ([true]: the stdout reader). *)
Record Process := mkProcess {
  p_stdout_pipe : option string;   (* error message of cmd.StdoutPipe *)
  p_stderr_pipe : option string;   (* error message of cmd.StderrPipe *)
  p_start : option string;         (* error message of starting the process *)
  p_stdout : string;
  p_stderr : string;
  p_sched : list bool;
  p_wait : WaitResult
}.

(** ** The world of one request *)

Record World := mkWorld {
  repl : string -> string;                   (* repl.ReplaceAll(_, "") *)
  request_done : option Z;                   (* when r.Context() is cancelled *)
  now : Z;                                   (* the instant the run begins *)
  flusher : bool;                            (* w.(http.Flusher) succeeds *)
  run : Cmd -> list string -> option string; (* m.run(argv): nil or message *)
  os : Launch -> Process;
  encode_err : option string;                (* write failure of Encode *)
  next_ServeHTTP : option string             (* next.ServeHTTP(w, r): nil or message *)
}.

(** ** JSON values of the response structs *)

Inductive JSON :=
| JString (s : string)
| JNumber (n : Z).

Definition JSONObject := list (string * JSON).

(** A string field tagged [omitempty]. *)
Definition omitempty (key value : string) : JSONObject :=
  if decide (value = "") then [] else [(key, JString value)].

(** ** Effects *)

Inductive LogField :=
| zap_Error (e : error)
| zap_String (key value : string)
| zap_Strings (key : string) (values : list string).

Inductive Effect :=
| EReplace (template : string)            (* repl.ReplaceAll(template, "") *)
| ECallRun (argv : list string)           (* m.run(argv) *)
| ELog (msg : string) (fields : list LogField)   (* m.log.Error *)
| ECallNext                               (* next.ServeHTTP(w, r) *)
| EHeaderSet (key value : string)         (* w.Header().Set *)
| EHeaderAdd (key value : string)         (* w.Header().Add *)
| EHeaderDel (key : string)               (* w.Header().Del *)
| EWriteHeader (code : Z)                 (* w.WriteHeader *)
| EWrite (data : string)                  (* fmt.Fprintf(w, ...) *)
| EEncode (obj : JSONObject)              (* json.NewEncoder(w).Encode *)
| EFlush                                  (* flusher.Flush() *)
| EStdoutPipe (l : Launch)                (* cmd.StdoutPipe() *)
| EStderrPipe (l : Launch)                (* cmd.StderrPipe() *)
| EStart (l : Launch)                     (* cmd.Start() *)
| ERun (l : Launch)                       (* cmd.Run() *)
| EWait (l : Launch)                      (* cmd.Wait() *)
| ECancel.                                (* the deferred cancel() *)

Definition Trace := list Effect.

(** ** The handler monad: a trace, and either a value or a [return] *)

Inductive Res (A : Type) :=
| Val (a : A)
| Return (r : option error).
Arguments Val {A} a.
Arguments Return {A} r.

Definition M (A : Type) : Type := (Trace * Res A)%type.

#[export] Instance M_ret : MRet M := fun A a => ([], Val a).

#[export] Instance M_bind : MBind M := fun A B f c =>
  match c with
  | (t, Val a) => let '(t', r) := f a in (t ++ t', r)
  | (t, Return r) => (t, Return r)
  end.

Definition emit (e : Effect) : M unit := ([e], Val tt).
Definition emits (t : Trace) : M unit := (t, Val tt).
Definition return_ {A} (r : option error) : M A := ([], Return r).

(** [defer]: the effect runs when the surrounding function returns. *)
Definition defer {A} (e : Effect) (body : M A) : M A :=
  let '(t, r) := body in (t ++ [e], r).

(** The outcome of a handler: its trace and the error it returns. *)
Definition Outcome := (Trace * option error)%type.

Definition handler (c : M (option error)) : Outcome :=
  match c with
  | (t, Val r) => (t, r)
  | (t, Return r) => (t, r)
  end.

Definition call_run (m : Cmd) (w : World) (argv : list string) : M (option error) :=
  emit (ECallRun argv);; mret (RunError <$> run w m argv).

Definition call_next (w : World) : M (option error) :=
  emit ECallNext;; mret (NextError <$> next_ServeHTTP w).

Definition Encode (w : World) (obj : JSONObject) : M (option error) :=
  emit (EEncode obj);; mret (WriteError <$> encode_err w).

(** [ctx := r.Context(); if m.timeout > 0 { ctx, cancel =
    context.WithTimeout(ctx, m.timeout); defer cancel() }], followed by the
    rest of the function. *)
Definition with_timeout {A} (m : Cmd) (body : Context -> M A) : M A :=
  if 0 <? timeout m
  then defer ECancel (body (WithTimeout RequestCtx (timeout m)))
  else body RequestCtx.

(** ** [bufio.Scanner] with the default split function [ScanLines] *)

Definition LF : ascii := "010"%char.
Definition CR : ascii := "013"%char.
Definition nl : string := String LF "".

(** The text between line feeds; a last line without a line feed counts
    when it is not empty. *)
Fixpoint raw_lines (acc s : string) : list string :=
  match s with
  | EmptyString => if decide (acc = "") then [] else [acc]
  | String c s' =>
      if decide (c = LF) then acc :: raw_lines "" s'
      else raw_lines (acc +:+ String c "") s'
  end.

Fixpoint dropCR (s : string) : string :=
  match s with
  | EmptyString => EmptyString
  | String c EmptyString => if decide (c = CR) then EmptyString else s
  | String c s' => String c (dropCR s')
  end.

Definition MaxScanTokenSize : Z := 64 * 1024.

(** [scanner.Scan()] stops for good at the first line that does not fit the
    buffer. *)
Fixpoint tokens (ls : list string) : list string :=
  match ls with
  | [] => []
  | l :: ls' =>
      if Z.of_nat (String.length l) <? MaxScanTokenSize
      then dropCR l :: tokens ls' else []
  end.

(** The successive values of [scanner.Text()] over a pipe that carries [s]. *)
Definition Scan (s : string) : list string := tokens (raw_lines "" s).

(** ** Server-sent events *)

(** [fmt.Fprintf(w, "event: <event>\ndata: %s\n\n", data)]. *)
Definition sse (event data : string) : string :=
  "event: " +:+ event +:+ nl +:+ "data: " +:+ data +:+ nl +:+ nl.

(** One reader goroutine: for every scanned line, a frame and a flush. *)
Definition reader (event pipe : string) : Trace :=
  flat_map (fun text => [EWrite (sse event text); EFlush]) (Scan pipe).

(** Two goroutines run side by side: the schedule says whose step comes
    next; a goroutine that has finished leaves the floor to the other. *)
Fixpoint interleave {A} (sched : list bool) (a b : list A) : list A :=
  match sched with
  | [] => a ++ b
  | first :: sched' =>
      match a, b with
      | [], _ => b
      | _, [] => a
      | x :: a', y :: b' =>
          if first then x :: interleave sched' a' b
          else y :: interleave sched' a b'
      end
  end.

(** [http.Error(w, msg, code)] of net/http. *)
Definition http_Error (msg : string) (code : Z) : M unit :=
  emits [EHeaderDel "Content-Length";
         EHeaderSet "Content-Type" "text/plain; charset=utf-8";
         EHeaderSet "X-Content-Type-Options" "nosniff";
         EWriteHeader code;
         EWrite (msg +:+ nl)].

(** ** The response structs *)

(** [struct { Status string `json:"status,omitempty"`;
             Error string `json:"error,omitempty"` }] *)
Record StatusResp := mkStatusResp {
  s_Status : string;
  s_Error : string
}.

Definition StatusResp_json (r : StatusResp) : JSONObject :=
  omitempty "status" (s_Status r) ++ omitempty "error" (s_Error r).

(** [struct { Status string `json:"status"`; Error string
    `json:"error,omitempty"`; Stdout string `json:"stdout"`; Stderr string
    `json:"stderr"`; ExitCode int `json:"exit_code"` }] *)
Record OutputResp := mkOutputResp {
  o_Status : string;
  o_Error : string;
  o_Stdout : string;
  o_Stderr : string;
  o_ExitCode : Z
}.

Definition OutputResp_json (r : OutputResp) : JSONObject :=
  [("status", JString (o_Status r))] ++ omitempty "error" (o_Error r) ++
  [("stdout", JString (o_Stdout r)); ("stderr", JString (o_Stderr r));
   ("exit_code", JNumber (o_ExitCode r))].

(** ** [cmd.Run()] with both channels redirected into buffers *)

(** The contents of the two buffers and the error: a process that could not
    be started wrote nothing. *)
Definition cmd_Run (p : Process) : string * string * option error :=
  match p_start p with
  | Some msg => ("", "", Some (StartError msg))
  | None => (p_stdout p, p_stderr p, Wait_err (p_wait p))
  end.

(** ** [runAndCollectOutput] *)

Definition log_if_error (err : option error) : M unit :=
  match err with
  | Some e => emit (ELog (Error_ e) [])
  | None => mret tt
  end.

Definition runAndCollectOutput (m : Cmd) (w : World) (argv : list string)
  : M (option error) :=
  if PassThru m then
    err ← call_run m w argv;
    log_if_error err;;
    call_next w
  else
    with_timeout m (fun ctx =>
      let cmd := mkLaunch ctx (Command m) argv (Directory m) in
      emit (ERun cmd);;
      let '(stdoutBuf, stderrBuf, err) := cmd_Run (os w cmd) in
      resp ← match err with
             | Some e =>
                 emit (EWriteHeader 500);;
                 mret (mkOutputResp "error" (Error_ e) "" ""
                         (match e with
                          | ExitError st => ExitCode st
                          | _ => -1
                          end))
             | None => mret (mkOutputResp "success" "" "" "" 0)
             end;
      let resp := mkOutputResp (o_Status resp) (o_Error resp)
                    stdoutBuf stderrBuf (o_ExitCode resp) in
      emit (EHeaderSet "Content-Type" "application/json; charset=utf-8");;
      Encode w (OutputResp_json resp)).

(** ** [ServeHTTP] *)

(** [argv := make([]string, len(m.Args)); for index, argument := range m.Args
    { argv[index] = repl.ReplaceAll(argument, "") }] *)
Fixpoint replace_loop (w : World) (index : nat) (args argv : list string)
  : M (list string) :=
  match args with
  | [] => mret argv
  | argument :: rest =>
      emit (EReplace argument);;
      replace_loop w (S index) rest (<[index := repl w argument]> argv)
  end.

Definition resolve (m : Cmd) (w : World) : M (list string) :=
  replace_loop w 0 (Args m) (replicate (length (Args m)) "").

(** The streaming part of [ServeHTTP], from [exec.CommandContext] on. *)
Definition stream_command (m : Cmd) (w : World) (argv : list string) (ctx : Context)
  : M (option error) :=
  let cmd := mkLaunch ctx (Command m) argv (Directory m) in
  let p := os w cmd in
  emit (EStdoutPipe cmd);;
  match p_stdout_pipe p with
  | Some msg =>
      emit (ELog "getting stdout pipe" [zap_Error (PipeError msg)]);;
      return_ (Some (PipeError msg))
  | None => mret tt
  end;;
  emit (EStderrPipe cmd);;
  match p_stderr_pipe p with
  | Some msg =>
      emit (ELog "getting stderr pipe" [zap_Error (PipeError msg)]);;
      return_ (Some (PipeError msg))
  | None => mret tt
  end;;
  emit (EStart cmd);;
  match p_start p with
  | Some msg =>
      emit (ELog "starting command"
              [zap_String "command" (Command m); zap_Strings "args" argv;
               zap_Error (StartError msg)]);;
      return_ (Some (StartError msg))
  | None => mret tt
  end;;
  emits (interleave (p_sched p)
           (reader "stdout" (p_stdout p)) (reader "stderr" (p_stderr p)));;
  emit (EWait cmd);;
  match Wait_err (p_wait p) with
  | Some e =>
      emits [ELog "command finished with error" [zap_Error e];
             EWrite (sse "error" (Error_ e)); EFlush]
  | None => mret tt
  end;;
  emits [EWrite (sse "close" "Command finished"); EFlush];;
  mret None.

Definition ServeHTTP_body (m : Cmd) (w : World) : M (option error) :=
  argv ← resolve m w;
  if negb (Stream m) then
    if Foreground m then runAndCollectOutput m w argv
    else
      err ← call_run m w argv;
      if PassThru m then
        log_if_error err;;
        call_next w
      else
        resp ← match err with
               | None => mret (mkStatusResp "success" "")
               | Some e =>
                   emit (EWriteHeader 500);;
                   mret (mkStatusResp "" (Error_ e))
               end;
        emit (EHeaderAdd "content-type" "application/json");;
        Encode w (StatusResp_json resp)
  else
    emits [EHeaderSet "Content-Type" "text/event-stream";
           EHeaderSet "Cache-Control" "no-cache";
           EHeaderSet "Connection" "keep-alive"];;
    if negb (flusher w) then
      emit (ELog "streaming unsupported" []);;
      http_Error "Streaming unsupported!" 500;;
      return_ None
    else
      with_timeout m (stream_command m w argv).

Definition ServeHTTP (m : Cmd) (w : World) : Outcome := handler (ServeHTTP_body m w).

(** ** What the client and the host observe of a trace *)

(** The status line: fixed by the first [WriteHeader], or 200 by the first
    write of body bytes. *)
Fixpoint status_code (t : Trace) : Z :=
  match t with
  | [] => 200
  | EWriteHeader code :: _ => code
  | EWrite _ :: _ | EEncode _ :: _ => 200
  | _ :: t' => status_code t'
  end.

(** The strings written to the body with [Fprintf], in order. *)
Definition writes (t : Trace) : list string :=
  omap (fun e => match e with EWrite s => Some s | _ => None end) t.

(** The objects encoded to the body, in order. *)
Definition encoded (t : Trace) : list JSONObject :=
  omap (fun e => match e with EEncode o => Some o | _ => None end) t.

(** The templates handed to the replacer, in order. *)
Definition replaced (t : Trace) : list string :=
  omap (fun e => match e with EReplace s => Some s | _ => None end) t.

(** The processes the handler launches itself, with their scope. *)
Definition launches (t : Trace) : list Launch :=
  omap (fun e => match e with EStart l | ERun l => Some l | _ => None end) t.

(** The argument vectors handed to the helper [m.run]. *)
Definition run_calls (t : Trace) : list (list string) :=
  omap (fun e => match e with ECallRun a => Some a | _ => None end) t.

(** How many times the next handler is called. *)
Definition next_calls (t : Trace) : nat :=
  length (omap (fun e => match e with ECallNext => Some tt | _ => None end) t).

(** The value of a field of an encoded object, if the field is there. *)
Definition field (key : string) (o : JSONObject) : option JSON :=
  (fun found => snd (snd found)) <$> list_find (fun kv => fst kv = key) o.

(** Everything the handler does to the response writer. *)
Definition on_response (e : Effect) : bool :=
  match e with
  | EHeaderSet _ _ | EHeaderAdd _ _ | EHeaderDel _
  | EWriteHeader _ | EWrite _ | EEncode _ | EFlush => true
  | _ => false
  end.

(** The scope that [with_timeout] builds, and the process the operating
    system runs for a trigger once the arguments are resolved. *)
Definition scope (m : Cmd) : Context :=
  if 0 <? timeout m then WithTimeout RequestCtx (timeout m) else RequestCtx.

Definition command (m : Cmd) (w : World) : Launch :=
  mkLaunch (scope m) (Command m) (repl w <$> Args m) (Directory m).

Definition process (m : Cmd) (w : World) : Process := os w (command m w).

(** Everything that runs a process or prepares one. *)
Definition on_process (e : Effect) : bool :=
  match e with
  | ECallRun _ | EStdoutPipe _ | EStderrPipe _ | EStart _ | ERun _ | EWait _ => true
  | _ => false
  end.

(** The messages logged at error level, in order. *)
Definition logs (t : Trace) : list string :=
  omap (fun e => match e with ELog msg _ => Some msg | _ => None end) t.


(** ** What the proofs speak of *)

(** The deferred [cancel()] runs exactly when a timeout was armed. *)
Definition deferred (m : Cmd) : Trace :=
  if 0 <? timeout m then [ECancel] else [].

(** What the pass-through paths log about the answer of the helper [run]. *)
Definition logged (err : option string) : Trace :=
  match err with
  | Some msg => [ELog msg []]
  | None => []
  end.

(** The response struct that [runAndCollectOutput] fills in. *)
Definition collected (p : Process) : OutputResp :=
  match cmd_Run p with
  | (out, err, None) => mkOutputResp "success" "" out err 0
  | (out, err, Some (ExitError st)) =>
      mkOutputResp "error" (Error_ (ExitError st)) out err (ExitCode st)
  | (out, err, Some e) => mkOutputResp "error" (Error_ e) out err (-1)
  end.

(** The three headers of an event stream, set before anything else. *)
Definition sse_headers : Trace :=
  [EHeaderSet "Content-Type" "text/event-stream";
   EHeaderSet "Cache-Control" "no-cache";
   EHeaderSet "Connection" "keep-alive"].

(** Why a streamed process does not get started, if it does not. *)
Definition start_failure (p : Process) : option error :=
  match p_stdout_pipe p, p_stderr_pipe p, p_start p with
  | Some msg, _, _ => Some (PipeError msg)
  | None, Some msg, _ => Some (PipeError msg)
  | None, None, Some msg => Some (StartError msg)
  | None, None, None => None
  end.

(** What the handler does up to the failed step. *)
Definition start_attempt (m : Cmd) (w : World) : Trace :=
  let c := command m w in
  match p_stdout_pipe (process m w), p_stderr_pipe (process m w), p_start (process m w) with
  | Some msg, _, _ =>
      [EStdoutPipe c; ELog "getting stdout pipe" [zap_Error (PipeError msg)]]
  | None, Some msg, _ =>
      [EStdoutPipe c; EStderrPipe c;
       ELog "getting stderr pipe" [zap_Error (PipeError msg)]]
  | None, None, Some msg =>
      [EStdoutPipe c; EStderrPipe c; EStart c;
       ELog "starting command"
         [zap_String "command" (Command m);
          zap_Strings "args" (repl w <$> Args m);
          zap_Error (StartError msg)]]
  | None, None, None => [EStdoutPipe c; EStderrPipe c; EStart c]
  end.

(** The part of the trace that the two reader goroutines produce. *)
Definition readers (p : Process) : Trace :=
  interleave (p_sched p) (reader "stdout" (p_stdout p)) (reader "stderr" (p_stderr p)).

(** What the handler does about the error of [cmd.Wait]. *)
Definition report (err : option error) : Trace :=
  match err with
  | Some e => [ELog "command finished with error" [zap_Error e];
               EWrite (sse "error" (Error_ e)); EFlush]
  | None => []
  end.

(** A reader goroutine only writes frames and flushes. *)
Definition is_output (e : Effect) : Prop :=
  match e with
  | EWrite _ | EFlush => True
  | _ => False
  end.

(** [Interleaving a b c]: [c] is made of the elements of [a] and of [b],
    each list in its own order. *)
Inductive Interleaving {A} : list A -> list A -> list A -> Prop :=
| Interleaving_nil : Interleaving [] [] []
| Interleaving_left x a b c :
    Interleaving a b c -> Interleaving (x :: a) b (x :: c)
| Interleaving_right y a b c :
    Interleaving a b c -> Interleaving a (y :: b) (y :: c).

(** The events that a client reads from the stream. *)
Inductive Event :=
| StdoutLine (text : string)
| StderrLine (text : string)
| ErrorEvent (msg : string)
| CloseEvent.

(** The frame that carries an event. *)
Definition frame (ev : Event) : string :=
  match ev with
  | StdoutLine text => sse "stdout" text
  | StderrLine text => sse "stderr" text
  | ErrorEvent msg => sse "error" msg
  | CloseEvent => sse "close" "Command finished"
  end.

(** Events that carry a line of output. *)
Definition is_line (ev : Event) : Prop :=
  match ev with
  | StdoutLine _ | StderrLine _ => True
  | _ => False
  end.

(** Effects after which the status line can no longer change. *)
Definition fixes_status (e : Effect) : bool :=
  match e with
  | EWriteHeader _ | EWrite _ | EEncode _ => true
  | _ => false
  end.

(** The error body with both a [status] and an [error] field. *)
Definition status_and_error (msg : string) : JSONObject :=
  [("status", JString "error"); ("error", JString msg)].

(** The events after the lines: an error event when [cmd.Wait] fails. *)
Definition error_events (r : WaitResult) : list Event :=
  match Wait_err r with
  | Some e => [ErrorEvent (Error_ e)]
  | None => []
  end.

(** ** Concrete triggers and worlds *)

(** A world in which the helper [run] fails the way the program [false]
    does, and a detached configuration for it. *)
Definition run_fails : World :=
  mkWorld (fun template => template) None 0 true
    (fun _ _ => Some "exit status 1")
    (fun _ => mkProcess None None None "" "" [] (Completed (Exited 0)))
    None None.

Definition detached_false : Cmd := mkCmd "false" [] "" false false false 0.

(** A world in which the program cannot be started, and a streamed
    configuration for it. *)
Definition start_fails : World :=
  mkWorld (fun template => template) None 0 true
    (fun _ _ => None)
    (fun _ => mkProcess None None (Some "exec: no such file or directory")
                "" "" [] (Completed (Exited 0)))
    None None.

Definition stream_missing : Cmd := mkCmd "missing" [] "" false false true 0.





(** A replacer that knows one placeholder. *)
Definition replacer (template : string) : string :=
  if decide (template = "{http.request.uri.path}") then "/index.html" else template.

(** The world of a request that ends at instant 12 and reaches its run at
    instant 10, with a flusher, in which the operating system answers every
    launch with the process [p] and the helper [run] with [helper]. *)
Definition world_of (p : Process) (helper : option string) : World :=
  mkWorld replacer (Some 12) 10 true (fun _ _ => helper) (fun _ => p) None None.

(** [sh -c "echo out; echo err 1>&2"], the stderr reader scheduled first. *)
Definition out_and_err : Process :=
  mkProcess None None None ("out" +:+ nl) ("err" +:+ nl) [false; false; true]
    (Completed (Exited 0)).

(** [echo hello]. *)
Definition hello : Process :=
  mkProcess None None None ("hello" +:+ nl) "" [] (Completed (Exited 0)).

Definition foreground_echo : Cmd := mkCmd "echo" ["hello"] "" true false false 0.

(** A process that prints part of its output and exits with status 3. *)
Definition partial_exit3 : Process :=
  mkProcess None None None ("step 1" +:+ nl) ("failed" +:+ nl) []
    (Completed (Exited 3)).

Definition streamed : Cmd :=
  mkCmd "sh" ["-c"; "echo out; echo err 1>&2"] "" false false true 5.

Definition collecting : Cmd :=
  mkCmd "deploy" ["{http.request.uri.path}"; "--now"] "/srv" true false false 5.

Definition passing : Cmd := mkCmd "touch" ["stamp"] "" true true false 0.

(** A world whose response writer is no flusher. *)
Definition no_flusher : World :=
  mkWorld replacer None 0 false (fun _ _ => None) (fun _ => out_and_err) None None.

(** ** The handler before the foreground mode *)

(** The earlier [ServeHTTP] of [middleware.go]: the same function without
    the branch on [m.Foreground]. *)
Definition ServeHTTP_v1_body (m : Cmd) (w : World) : M (option error) :=
  argv ← resolve m w;
  if negb (Stream m) then
    err ← call_run m w argv;
    if PassThru m then
      log_if_error err;;
      call_next w
    else
      resp ← match err with
             | None => mret (mkStatusResp "success" "")
             | Some e =>
                 emit (EWriteHeader 500);;
                 mret (mkStatusResp "" (Error_ e))
             end;
      emit (EHeaderAdd "content-type" "application/json");;
      Encode w (StatusResp_json resp)
  else
    emits [EHeaderSet "Content-Type" "text/event-stream";
           EHeaderSet "Cache-Control" "no-cache";
           EHeaderSet "Connection" "keep-alive"];;
    if negb (flusher w) then
      emit (ELog "streaming unsupported" []);;
      http_Error "Streaming unsupported!" 500;;
      return_ None
    else
      with_timeout m (stream_command m w argv).

Definition ServeHTTP_v1 (m : Cmd) (w : World) : Outcome :=
  handler (ServeHTTP_v1_body m w).

(** ** Further observations *)

(** The header effects that are in force when the status line is written:
    net/http ignores what is done to the header map after the first
    [WriteHeader] or the first write of the body. *)
Fixpoint committed (t : Trace) : Trace :=
  match t with
  | [] => []
  | e :: t' =>
      if fixes_status e then []
      else match e with
           | EHeaderSet _ _ | EHeaderAdd _ _ | EHeaderDel _ => e :: committed t'
           | _ => committed t'
           end
  end.

(** How often the handler flushes, waits for a process, starts one with
    [cmd.Start], and runs a deferred [cancel]. *)
Definition flushes (t : Trace) : nat :=
  length (omap (fun e => match e with EFlush => Some tt | _ => None end) t).

Definition waits (t : Trace) : list Launch :=
  omap (fun e => match e with EWait l => Some l | _ => None end) t.

Definition starts (t : Trace) : list Launch :=
  omap (fun e => match e with EStart l => Some l | _ => None end) t.

Definition cancels (t : Trace) : nat :=
  length (omap (fun e => match e with ECancel => Some tt | _ => None end) t).

(** What the handler does to the response writer, in order. *)
Definition response_effects (t : Trace) : list Effect :=
  filter (fun e => on_response e = true) (t : list Effect).

(** The text of a line event of one pipe. *)
Definition stdout_text (ev : Event) : option string :=
  match ev with StdoutLine text => Some text | _ => None end.

Definition stderr_text (ev : Event) : option string :=
  match ev with StderrLine text => Some text | _ => None end.

(** Whether a character occurs in a string. *)
Fixpoint contains (c : ascii) (s : string) : bool :=
  match s with
  | EmptyString => false
  | String c' s' => if decide (c' = c) then true else contains c s'
  end.

(** The text of a pipe on which [ls] were written, a line feed after each. *)
Fixpoint unlines (ls : list string) : string :=
  match ls with
  | [] => ""
  | l :: ls' => l +:+ nl +:+ unlines ls'
  end.

(** A line that the scanner can hold: no line feed inside, shorter than the
    buffer. *)
Definition fits (l : string) : Prop :=
  contains LF l = false /\ Z.of_nat (String.length l) < MaxScanTokenSize.

(** [n] times the character [c]. *)
Fixpoint fill (n : nat) (c : ascii) : string :=
  match n with
  | O => ""
  | S n' => String c (fill n' c)
  end.

(** Whether the handler builds a cancellation scope for this trigger. *)
Definition builds_scope (m : Cmd) (w : World) : bool :=
  if Stream m then flusher w else Foreground m && negb (PassThru m).

(** ** More concrete processes *)

(** A process that prints two lines and a third one without line feed. *)
Definition three_lines : Process :=
  mkProcess None None None (unlines ["one"; "two"] +:+ "three") "" [true; false]
    (Completed (Exited 0)).

(** A line of exactly 64 KiB. *)
Definition long_line : string := fill (Z.to_nat MaxScanTokenSize) "x".

(** A process that prints a line, then a line of 64 KiB, then one more. *)
Definition with_long_line : Process :=
  mkProcess None None None (unlines ["ok"] +:+ long_line +:+ (nl +:+ "lost" +:+ nl))
    "" [] (Completed (Exited 0)).

(** A process that ends its two lines with carriage return and line feed. *)
Definition crlf_lines : Process :=
  mkProcess None None None (unlines ((fun l => l +:+ String CR "") <$> ["GET /"; ""]))
    "" [] (Completed (Exited 0)).

(** * Properties *)

(** ** The monad *)

Lemma bind_val {A B} (t : Trace) (a : A) (f : A -> M B) :
  mbind f ((t, Val a) : M A) = (t ++ (f a).1, (f a).2).
Proof. unfold mbind, M_bind. by destruct (f a). Qed.

Lemma handler_bind_val {A} (t : Trace) (a : A) (f : A -> M (option error)) :
  handler (mbind f ((t, Val a) : M A)) = (t ++ (handler (f a)).1, (handler (f a)).2).
Proof. rewrite bind_val. by destruct (f a) as [t' [r|r]]. Qed.

(** ** Argument resolution *)

Lemma replace_loop_spec w args done :
  replace_loop w (length done) args (done ++ replicate (length args) "")
  = (EReplace <$> args, Val (done ++ (repl w <$> args))).
Proof.
  revert done. induction args as [|argument rest IH]; intros done; simpl.
  - reflexivity.
  - rewrite insert_app_r_alt by lia.
    replace (length done - length done)%nat with 0%nat by lia. simpl.
    specialize (IH (done ++ [repl w argument])).
    rewrite length_app in IH. simpl in IH.
    replace (length done + 1)%nat with (S (length done)) in IH by lia.
    rewrite <- !app_assoc in IH. simpl in IH.
    by rewrite IH.
Qed.

Lemma resolve_spec m w :
  resolve m w = (EReplace <$> Args m, Val (repl w <$> Args m)).
Proof. exact (replace_loop_spec w (Args m) []). Qed.

(** ** The trace of each mode *)

Ltac serve :=
  unfold ServeHTTP, ServeHTTP_body;
  rewrite resolve_spec, handler_bind_val.

Lemma with_timeout_spec {A} m (body : Context -> M A) :
  with_timeout m body = ((body (scope m)).1 ++ deferred m, (body (scope m)).2).
Proof.
  unfold with_timeout, scope, deferred, defer.
  destruct (0 <? timeout m); destruct (body _) as [t r]; simpl;
    by rewrite ?app_nil_r.
Qed.

Lemma handler_with_timeout m (body : Context -> M (option error)) :
  handler (with_timeout m body)
  = ((handler (body (scope m))).1 ++ deferred m, (handler (body (scope m))).2).
Proof. rewrite with_timeout_spec. by destruct (body _) as [t [r|r]]. Qed.

Lemma ServeHTTP_passthru m w :
  Stream m = false -> PassThru m = true ->
  ServeHTTP m w
  = ((EReplace <$> Args m) ++ [ECallRun (repl w <$> Args m)]
       ++ logged (run w m (repl w <$> Args m)) ++ [ECallNext],
     NextError <$> next_ServeHTTP w).
Proof.
  intros Hs Hp. serve. rewrite Hs. simpl.
  unfold runAndCollectOutput. rewrite Hp. simpl.
  by destruct (Foreground m), (run w m _).
Qed.

Lemma ServeHTTP_detached m w :
  Stream m = false -> Foreground m = false -> PassThru m = false ->
  ServeHTTP m w
  = ((EReplace <$> Args m) ++ [ECallRun (repl w <$> Args m)]
       ++ match run w m (repl w <$> Args m) with
          | None => [EHeaderAdd "content-type" "application/json";
                     EEncode [("status", JString "success")]]
          | Some msg => [EWriteHeader 500;
                         EHeaderAdd "content-type" "application/json";
                         EEncode (omitempty "error" msg)]
          end,
     WriteError <$> encode_err w).
Proof.
  intros Hs Hf Hp. serve. rewrite Hs, Hf, Hp. simpl.
  by destruct (run w m _).
Qed.

Lemma ServeHTTP_collected m w :
  Stream m = false -> Foreground m = true -> PassThru m = false ->
  ServeHTTP m w
  = ((EReplace <$> Args m) ++ [ERun (command m w)]
       ++ match (cmd_Run (process m w)).2 with
          | Some _ => [EWriteHeader 500]
          | None => []
          end
       ++ [EHeaderSet "Content-Type" "application/json; charset=utf-8";
           EEncode (OutputResp_json (collected (process m w)))]
       ++ deferred m,
     WriteError <$> encode_err w).
Proof.
  intros Hs Hf Hp. serve. rewrite Hs, Hf. simpl.
  unfold runAndCollectOutput. rewrite Hp, handler_with_timeout.
  fold (command m w). fold (process m w). unfold collected.
  destruct (cmd_Run (process m w)) as [[out err] [e|]]; simpl.
  - by destruct e.
  - done.
Qed.

Lemma ServeHTTP_no_flusher m w :
  Stream m = true -> flusher w = false ->
  ServeHTTP m w
  = ((EReplace <$> Args m) ++ sse_headers
       ++ [ELog "streaming unsupported" [];
           EHeaderDel "Content-Length";
           EHeaderSet "Content-Type" "text/plain; charset=utf-8";
           EHeaderSet "X-Content-Type-Options" "nosniff";
           EWriteHeader 500;
           EWrite ("Streaming unsupported!" +:+ nl)],
     None).
Proof. intros Hs Hf. serve. by rewrite Hs, Hf. Qed.

Lemma ServeHTTP_not_started m w e :
  Stream m = true -> flusher w = true ->
  start_failure (process m w) = Some e ->
  ServeHTTP m w
  = ((EReplace <$> Args m) ++ sse_headers ++ start_attempt m w ++ deferred m,
     Some e).
Proof.
  intros Hs Hf He. serve. rewrite Hs, Hf. cbn [negb]. unfold emits.
  rewrite handler_bind_val, handler_with_timeout. unfold stream_command.
  fold (command m w). fold (process m w).
  unfold start_failure, start_attempt in *.
  destruct (p_stdout_pipe (process m w)); simpl.
  { by simplify_eq. }
  destruct (p_stderr_pipe (process m w)); simpl.
  { by simplify_eq. }
  destruct (p_start (process m w)); simpl.
  { by simplify_eq. }
  done.
Qed.

Lemma ServeHTTP_started m w :
  Stream m = true -> flusher w = true ->
  start_failure (process m w) = None ->
  ServeHTTP m w
  = ((EReplace <$> Args m) ++ sse_headers ++ start_attempt m w
       ++ readers (process m w) ++ [EWait (command m w)]
       ++ report (Wait_err (p_wait (process m w)))
       ++ [EWrite (sse "close" "Command finished"); EFlush] ++ deferred m,
     None).
Proof.
  intros Hs Hf He. serve. rewrite Hs, Hf. cbn [negb]. unfold emits.
  rewrite handler_bind_val, handler_with_timeout. unfold stream_command.
  fold (command m w). fold (process m w).
  unfold start_failure, start_attempt, readers in *.
  destruct (p_stdout_pipe (process m w)); [done|].
  destruct (p_stderr_pipe (process m w)); [done|].
  destruct (p_start (process m w)); [done|]. simpl.
  destruct (Wait_err _); simpl; by rewrite <- ?app_assoc.
Qed.

(** ** Observations of a trace, piece by piece *)

Lemma omap_none {A B} (f : A -> option B) (l : list A) :
  Forall (fun x => f x = None) l -> omap f l = [].
Proof. induction 1 as [|x l Hx _ IH]; simpl; [done|]. by rewrite Hx. Qed.

Lemma Forall_interleave {A} (P : A -> Prop) sched (a b : list A) :
  Forall P a -> Forall P b -> Forall P (interleave sched a b).
Proof.
  revert a b. induction sched as [|first sched IH]; intros a b Ha Hb; simpl.
  - by apply Forall_app.
  - destruct a as [|x a]; [done|]. destruct b as [|y b]; [done|].
    destruct first; constructor.
    + by inversion Ha.
    + apply IH; [by inversion Ha | done].
    + by inversion Hb.
    + apply IH; [done | by inversion Hb].
Qed.

Lemma reader_output event pipe : Forall is_output (reader event pipe).
Proof.
  unfold reader. induction (Scan pipe) as [|text l IH]; simpl; [done|].
  by repeat constructor.
Qed.

Lemma readers_output p : Forall is_output (readers p).
Proof. apply Forall_interleave; apply reader_output. Qed.

Lemma omap_readers {B} (f : Effect -> option B) p :
  (forall s, f (EWrite s) = None) -> f EFlush = None -> omap f (readers p) = [].
Proof.
  intros Hw Hf. apply omap_none.
  eapply Forall_impl; [apply readers_output|].
  by intros [] ?.
Qed.

Lemma omap_replace {B} (f : Effect -> option B) (l : list string) :
  (forall s, f (EReplace s) = None) -> omap f (EReplace <$> l) = [].
Proof. intros H. apply omap_none, Forall_fmap, Forall_forall. intros x _. apply H. Qed.

Lemma omap_deferred {B} (f : Effect -> option B) m :
  f ECancel = None -> omap f (deferred m) = [].
Proof. intros H. unfold deferred. destruct (0 <? timeout m); simpl; by rewrite ?H. Qed.

(** ** Interleavings *)

Lemma Interleaving_nil_l {A} (b : list A) : Interleaving [] b b.
Proof. induction b; by constructor. Qed.

Lemma Interleaving_nil_r {A} (a : list A) : Interleaving a [] a.
Proof. induction a; by constructor. Qed.

Lemma Interleaving_app {A} (a b : list A) : Interleaving a b (a ++ b).
Proof. induction a; simpl; [apply Interleaving_nil_l | by constructor]. Qed.

Lemma interleave_Interleaving {A} sched (a b : list A) :
  Interleaving a b (interleave sched a b).
Proof.
  revert a b. induction sched as [|first sched IH]; intros a b; simpl.
  - apply Interleaving_app.
  - destruct a as [|x a]; [apply Interleaving_nil_l|].
    destruct b as [|y b]; [apply Interleaving_nil_r|].
    destruct first; constructor; apply IH.
Qed.

Lemma Interleaving_omap {A B} (f : A -> option B) (a b c : list A) :
  Interleaving a b c -> Interleaving (omap f a) (omap f b) (omap f c).
Proof.
  induction 1 as [|x a b c _ IH|y a b c _ IH]; simpl.
  - constructor.
  - destruct (f x); [by constructor | done].
  - destruct (f y); [by constructor | done].
Qed.

Lemma Interleaving_fmap_inv {A B} (f : A -> B) (a b : list A) (c : list B) :
  Interleaving (f <$> a) (f <$> b) c ->
  exists c' : list A, c = f <$> c' /\ Interleaving a b c'.
Proof.
  intros H. remember (f <$> a) as fa eqn:Ha. remember (f <$> b) as fb eqn:Hb.
  revert a b Ha Hb.
  induction H as [|x fa fb c _ IH|y fa fb c _ IH]; intros a b Ha Hb.
  - symmetry in Ha, Hb. apply fmap_nil_inv in Ha, Hb. subst.
    exists []. split; [done | constructor].
  - destruct a as [|x' a]; simplify_eq/=.
    destruct (IH a b eq_refl eq_refl) as (c' & -> & Hc).
    exists (x' :: c'). split; [done | by constructor].
  - destruct b as [|y' b]; simplify_eq/=.
    destruct (IH a b eq_refl eq_refl) as (c' & -> & Hc).
    exists (y' :: c'). split; [done | by constructor].
Qed.

(** ** The events of a stream *)

Lemma length_append (s t : string) :
  String.length (s +:+ t) = (String.length s + String.length t)%nat.
Proof. induction s as [|c s IH]; simpl; [done | by rewrite IH]. Qed.

Lemma append_inv_tail (s1 s2 t : string) : s1 +:+ t = s2 +:+ t -> s1 = s2.
Proof.
  revert s2. induction s1 as [|c s1 IH]; intros [|c' s2] H; simpl in *.
  - done.
  - apply (f_equal String.length) in H. simpl in H.
    rewrite !length_append in H. simpl in H. lia.
  - apply (f_equal String.length) in H. simpl in H.
    rewrite !length_append in H. simpl in H. lia.
  - injection H as -> H. f_equal. by apply IH.
Qed.

(** Frames can be told apart: the events of a stream are determined by what
    is written to the body. *)
Lemma frame_inj ev1 ev2 : frame ev1 = frame ev2 -> ev1 = ev2.
Proof.
  destruct ev1, ev2; unfold frame, sse; simpl; intros H;
    try discriminate H; try reflexivity;
    injection H as H; f_equal; apply (append_inv_tail _ _ (nl +:+ nl)), H.
Qed.

(** No frame of another event is the close frame. *)
Lemma close_frames_none (evs : list Event) :
  Forall (fun ev => ev <> CloseEvent) evs ->
  filter (fun s => s = frame CloseEvent) (frame <$> evs) = [].
Proof.
  induction 1 as [|ev evs Hev _ IH]; [done|].
  rewrite fmap_cons, filter_cons. case_decide as Heq; [|done].
  by apply frame_inj in Heq.
Qed.

Lemma writes_reader event pipe :
  writes (reader event pipe) = sse event <$> Scan pipe.
Proof.
  unfold reader. induction (Scan pipe) as [|text l IH]; simpl; [done|].
  by f_equal.
Qed.

(** What the readers write is an interleaving of the stdout lines and the
    stderr lines, each in the order of its pipe. *)
Lemma writes_readers p :
  exists lines : list Event,
    writes (readers p) = frame <$> lines
    /\ Interleaving (StdoutLine <$> Scan (p_stdout p))
                    (StderrLine <$> Scan (p_stderr p)) lines.
Proof.
  apply Interleaving_fmap_inv. rewrite <- !list_fmap_compose.
  change (frame ∘ StdoutLine) with (sse "stdout").
  change (frame ∘ StderrLine) with (sse "stderr").
  rewrite <- !writes_reader. apply Interleaving_omap, interleave_Interleaving.
Qed.

Lemma Interleaving_Forall {A} (P : A -> Prop) (a b c : list A) :
  Interleaving a b c -> Forall P a -> Forall P b -> Forall P c.
Proof.
  induction 1; intros Ha Hb; [done| |].
  - inversion Ha; subst. constructor; auto.
  - inversion Hb; subst. constructor; auto.
Qed.

(** ** Case analysis on the mode of a trigger *)

Ltac by_mode m w :=
  let Hs := fresh "Hstream" in
  let Hf := fresh "Hflusher" in
  let Hst := fresh "Hstart" in
  let Hp := fresh "Hpass" in
  let Hfg := fresh "Hfore" in
  let e := fresh "e" in
  destruct (Stream m) eqn:Hs;
  [ destruct (flusher w) eqn:Hf;
    [ destruct (start_failure (process m w)) as [e|] eqn:Hst;
      [ rewrite (ServeHTTP_not_started m w e Hs Hf Hst)
      | rewrite (ServeHTTP_started m w Hs Hf Hst) ]
    | rewrite (ServeHTTP_no_flusher m w Hs Hf) ]
  | destruct (PassThru m) eqn:Hp;
    [ rewrite (ServeHTTP_passthru m w Hs Hp)
    | destruct (Foreground m) eqn:Hfg;
      [ rewrite (ServeHTTP_collected m w Hs Hfg Hp)
      | rewrite (ServeHTTP_detached m w Hs Hfg Hp) ] ] ].

Lemma replaced_replace (l : list string) : replaced (EReplace <$> l) = l.
Proof. induction l as [|x l IH]; simpl; [done | by f_equal]. Qed.

Ltac observe :=
  rewrite ?replaced_replace;
  unfold writes, encoded, replaced, launches, run_calls, next_calls, logs;
  rewrite ?omap_app;
  fold replaced; rewrite ?replaced_replace; unfold replaced;
  repeat (rewrite omap_replace by done);
  repeat (rewrite omap_readers by done);
  repeat (rewrite omap_deferred by done);
  simpl; rewrite ?app_nil_r.


Ltac cases_of_start m w :=
  unfold start_failure, start_attempt in *;
  destruct (p_stdout_pipe (process m w)), (p_stderr_pipe (process m w)),
    (p_start (process m w)); try discriminate.


(** ** The status line *)

Lemma status_code_skip (a b : Trace) :
  Forall (fun e => fixes_status e = false) a ->
  status_code (a ++ b) = status_code b.
Proof.
  induction 1 as [|e a He _ IH]; simpl; [done|].
  by destruct e.
Qed.

Lemma status_code_replace (l : list string) (t : Trace) :
  status_code ((EReplace <$> l) ++ t) = status_code t.
Proof. apply status_code_skip, Forall_fmap, Forall_forall. by intros. Qed.

Lemma Forall_replace (P : Effect -> Prop) (l : list string) :
  (forall s, P (EReplace s)) -> Forall P (EReplace <$> l).
Proof. intros H. apply Forall_fmap, Forall_forall. intros x _. apply H. Qed.

Lemma Forall_deferred (P : Effect -> Prop) m :
  P ECancel -> Forall P (deferred m).
Proof. intros H. unfold deferred. destruct (0 <? timeout m); by repeat constructor. Qed.

(** ** Streaming without a flusher *)

(** C7: in streamed mode, when the response writer is not a flusher, the
    handler logs "streaming unsupported", answers with status 500 and the
    plain-text body of [http.Error], and returns at once: no pipe is asked
    for, no process is started, the helper [run] and the next handler are
    not called. *)
Theorem C7_streaming_unsupported (m : Cmd) (w : World) :
  Stream m = true -> flusher w = false ->
  (ServeHTTP m w).2 = None
  /\ logs (ServeHTTP m w).1 = ["streaming unsupported"]
  /\ status_code (ServeHTTP m w).1 = 500
  /\ writes (ServeHTTP m w).1 = ["Streaming unsupported!" +:+ nl]
  /\ Forall (fun e => on_process e = false) (ServeHTTP m w).1
  /\ launches (ServeHTTP m w).1 = []
  /\ run_calls (ServeHTTP m w).1 = []
  /\ next_calls (ServeHTTP m w).1 = 0%nat
  /\ last (ServeHTTP m w).1 = Some (EWrite ("Streaming unsupported!" +:+ nl)).
Proof.
  intros Hs Hf. rewrite (ServeHTTP_no_flusher m w Hs Hf). cbn [fst snd].
  split_and!.
  - done.
  - by observe.
  - by rewrite status_code_replace.
  - by observe.
  - apply Forall_app. split; [by apply Forall_replace|]. by repeat constructor.
  - by observe.
  - by observe.
  - by observe.
  - by rewrite last_app.
Qed.

(** ** Pass-through *)

(** C6: in a run that is not streamed and has [PassThru] set, with or
    without [Foreground], the next handler is called exactly once, as the
    last step and whatever the helper [run] returned; the handler returns
    what the next handler returns; an error of [run] is logged and nothing
    else is done with it; the handler does not touch the response writer. *)
Theorem C6_pass_through (m : Cmd) (w : World) :
  Stream m = false -> PassThru m = true ->
  next_calls (ServeHTTP m w).1 = 1%nat
  /\ last (ServeHTTP m w).1 = Some ECallNext
  /\ (ServeHTTP m w).2 = NextError <$> next_ServeHTTP w
  /\ run_calls (ServeHTTP m w).1 = [repl w <$> Args m]
  /\ launches (ServeHTTP m w).1 = []
  /\ logs (ServeHTTP m w).1
     = match run w m (repl w <$> Args m) with
       | Some msg => [msg]
       | None => []
       end
  /\ Forall (fun e => on_response e = false) (ServeHTTP m w).1
  /\ writes (ServeHTTP m w).1 = []
  /\ encoded (ServeHTTP m w).1 = [].
Proof.
  intros Hs Hp. rewrite (ServeHTTP_passthru m w Hs Hp). cbn [fst snd].
  destruct (run w m _) as [msg|]; cbn [logged].
  - split_and!; try (by observe).
    + by rewrite !app_assoc, last_snoc.
    + apply Forall_app. split; [by apply Forall_replace|]. by repeat constructor.
  - split_and!; try (by observe).
    + by rewrite !app_assoc, last_snoc.
    + apply Forall_app. split; [by apply Forall_replace|]. by repeat constructor.
Qed.

(** ** Streaming takes precedence *)

Lemma start_attempt_quiet m w :
  Forall (fun e => match e with
                   | EStdoutPipe _ | EStderrPipe _ | EStart _ | ELog _ _ => True
                   | _ => False
                   end) (start_attempt m w).
Proof. cases_of_start m w; by repeat constructor. Qed.

Lemma omap_start_attempt {B} (f : Effect -> option B) m w :
  (forall l, f (EStdoutPipe l) = None) -> (forall l, f (EStderrPipe l) = None) ->
  (forall l, f (EStart l) = None) -> (forall msg fs, f (ELog msg fs) = None) ->
  omap f (start_attempt m w) = [].
Proof.
  intros H1 H2 H3 H4. apply omap_none.
  eapply Forall_impl; [apply start_attempt_quiet|].
  intros [] ?; try done; auto.
Qed.

Ltac forall_trace :=
  repeat first
    [ apply Forall_nil_2
    | apply Forall_cons_2; [done|]
    | apply Forall_app_2
    | by apply Forall_replace
    | by apply Forall_deferred
    | by (eapply Forall_impl; [apply start_attempt_quiet|]; intros [])
    | by (eapply Forall_impl; [apply readers_output|]; intros []) ].


(** ** Collected runs *)

Lemma OutputResp_fields (r : OutputResp) :
  field "status" (OutputResp_json r) = Some (JString (o_Status r))
  /\ field "stdout" (OutputResp_json r) = Some (JString (o_Stdout r))
  /\ field "stderr" (OutputResp_json r) = Some (JString (o_Stderr r))
  /\ field "exit_code" (OutputResp_json r) = Some (JNumber (o_ExitCode r))
  /\ field "error" (OutputResp_json r)
     = if decide (o_Error r = "") then None else Some (JString (o_Error r)).
Proof.
  unfold OutputResp_json, omitempty.
  by destruct (decide (o_Error r = "")).
Qed.

Lemma collected_trace m w :
  Stream m = false -> Foreground m = true -> PassThru m = false ->
  encoded (ServeHTTP m w).1 = [OutputResp_json (collected (process m w))]
  /\ launches (ServeHTTP m w).1 = [command m w]
  /\ run_calls (ServeHTTP m w).1 = []
  /\ next_calls (ServeHTTP m w).1 = 0%nat
  /\ (ServeHTTP m w).2 = WriteError <$> encode_err w.
Proof.
  intros Hs Hf Hp. rewrite (ServeHTTP_collected m w Hs Hf Hp). cbn [fst snd].
  by destruct (cmd_Run _).2; observe.
Qed.

(** C3: a collected run (not streamed, [Foreground] set, [PassThru] not set)
    encodes exactly one JSON object; it always has the fields [status],
    [stdout], [stderr] and [exit_code]; [status] is "success" or "error" and
    [exit_code] is 0 exactly when [status] is "success"; a process that
    exits with a code other than 0 gives [status] "error" and that code; a
    process ended by a signal, or one that could not be started, gives
    [exit_code] -1 and [status] "error"; the field [error] is there only
    when [status] is "error". *)
Theorem C3_collected_exit_code (m : Cmd) (w : World) :
  Stream m = false -> Foreground m = true -> PassThru m = false ->
  exists (obj : JSONObject) (status : string) (code : Z),
    encoded (ServeHTTP m w).1 = [obj]
    /\ launches (ServeHTTP m w).1 = [command m w]
    /\ field "status" obj = Some (JString status)
    /\ field "exit_code" obj = Some (JNumber code)
    /\ is_Some (field "stdout" obj)
    /\ is_Some (field "stderr" obj)
    /\ (status = "success" \/ status = "error")
    /\ (code = 0 <-> status = "success")
    /\ (forall c, p_start (process m w) = None ->
                  p_wait (process m w) = Completed (Exited c) -> c <> 0 ->
                  status = "error" /\ code = c)
    /\ (forall sig, p_start (process m w) = None ->
                    p_wait (process m w) = Completed (Signaled sig) ->
                    status = "error" /\ code = -1)
    /\ (forall msg, p_start (process m w) = Some msg ->
                    status = "error" /\ code = -1)
    /\ (is_Some (field "error" obj) -> status = "error").
Proof.
  intros Hs Hf Hp.
  destruct (collected_trace m w Hs Hf Hp) as (Henc & Hl & _).
  destruct (OutputResp_fields (collected (process m w)))
    as (Hstatus & Hout & Herr & Hcode & Herror).
  exists (OutputResp_json (collected (process m w))),
    (o_Status (collected (process m w))), (o_ExitCode (collected (process m w))).
  rewrite Hout, Herr, Herror.
  split_and!; try done.
  all: unfold collected, cmd_Run.
  all: destruct (p_start (process m w)) as [msg|];
    [|destruct (p_wait (process m w)) as [[[|c|c]|sig]|msg]]; simpl.
  all: try (by auto).
  all: try (split; intros; simplify_eq).
  all: try (intros; simplify_eq; done).
  all: try (intros [? ?]; simplify_eq).
Qed.


(** ** Detached runs *)

(** C2, as stated, fails: the detached run of a failing command answers
    with status 500 and an object that has the field [error] only; the
    object with [status] "error" next to [error] is not what is encoded. *)
Lemma C2_counterexample :
  Stream detached_false = false /\ Foreground detached_false = false
  /\ PassThru detached_false = false
  /\ run run_fails detached_false (repl run_fails <$> Args detached_false)
     = Some "exit status 1"
  /\ status_code (ServeHTTP detached_false run_fails).1 = 500
  /\ encoded (ServeHTTP detached_false run_fails).1
     = [[("error", JString "exit status 1")]]
  /\ encoded (ServeHTTP detached_false run_fails).1
     <> [status_and_error "exit status 1"]
  /\ field "status" [("error", JString "exit status 1")] = None.
Proof. by vm_compute. Qed.

(** C2, amended: a detached run (not streamed, [Foreground] and [PassThru]
    not set) encodes exactly one JSON object.  When the helper [run] returns
    nil, the status is 200 and the object is [{"status":"success"}].  When it
    returns an error, the status is 500 and the object carries the message in
    its only field [error] ([status] is left out, as the empty string of an
    [omitempty] field is).  Neither object has a [stdout] or [stderr]
    field. *)
Theorem C2_detached_response (m : Cmd) (w : World) :
  Stream m = false -> Foreground m = false -> PassThru m = false ->
  exists obj : JSONObject,
    encoded (ServeHTTP m w).1 = [obj]
    /\ run_calls (ServeHTTP m w).1 = [repl w <$> Args m]
    /\ (ServeHTTP m w).2 = WriteError <$> encode_err w
    /\ field "stdout" obj = None /\ field "stderr" obj = None
    /\ match run w m (repl w <$> Args m) with
       | None =>
           status_code (ServeHTTP m w).1 = 200
           /\ obj = [("status", JString "success")]
       | Some msg =>
           status_code (ServeHTTP m w).1 = 500
           /\ obj = omitempty "error" msg
           /\ field "status" obj = None
           /\ (msg <> "" -> obj = [("error", JString msg)])
       end.
Proof.
  intros Hs Hf Hp. rewrite (ServeHTTP_detached m w Hs Hf Hp). cbn [fst snd].
  rewrite !status_code_replace.
  destruct (run w m _) as [msg|]; eexists; observe.
  - split_and!; try done; unfold omitempty; by destruct (decide (msg = "")).
  - by split_and!.
Qed.

(** ** Streamed runs *)

(** C1, as stated, fails: a streamed run whose process cannot be started
    writes no frame at all, so no close event either, and hands the start
    error to the host. *)
Lemma C1_counterexample :
  Stream stream_missing = true /\ flusher start_fails = true
  /\ writes (ServeHTTP stream_missing start_fails).1 = []
  /\ ~ (frame CloseEvent ∈ writes (ServeHTTP stream_missing start_fails).1)
  /\ (ServeHTTP stream_missing start_fails).2
     = Some (StartError "exec: no such file or directory").
Proof.
  split_and!; try (by vm_compute).
  replace (writes (ServeHTTP stream_missing start_fails).1) with (@nil string)
    by by vm_compute.
  apply not_elem_of_nil.
Qed.

Lemma Wait_err_None r : Wait_err r = None <-> r = Completed (Exited 0).
Proof.
  destruct r as [[[|c|c]|sig]|msg]; simpl; split; intros H; by simplify_eq.
Qed.

(** C1, amended: in a streamed run whose response writer is a flusher and
    whose process is started (both pipes obtained, [cmd.Start] without
    error), the frames written are, in this order: the stdout lines and the
    stderr lines in some interleaving that keeps the order of each pipe; one
    error event exactly when the process did not exit with status 0; one
    close event, which is the last thing written.  The handler returns nil.
    When a pipe or the start fails, no frame is written and the failure is
    returned; when the writer is no flusher, the only thing written is the
    body of [http.Error]. *)
Theorem C1_stream_events (m : Cmd) (w : World) :
  Stream m = true ->
  if flusher w then
    match start_failure (process m w) with
    | None =>
        exists lines : list Event,
          Interleaving (StdoutLine <$> Scan (p_stdout (process m w)))
                       (StderrLine <$> Scan (p_stderr (process m w))) lines
          /\ Forall is_line lines
          /\ writes (ServeHTTP m w).1
             = frame <$> (lines ++ error_events (p_wait (process m w)) ++ [CloseEvent])
          /\ (error_events (p_wait (process m w)) = []
              <-> p_wait (process m w) = Completed (Exited 0))
          /\ (length (error_events (p_wait (process m w))) <= 1)%nat
          /\ last (writes (ServeHTTP m w).1) = Some (frame CloseEvent)
          /\ filter (fun s => s = frame CloseEvent) (writes (ServeHTTP m w).1)
             = [frame CloseEvent]
          /\ (ServeHTTP m w).2 = None
    | Some e =>
        writes (ServeHTTP m w).1 = [] /\ (ServeHTTP m w).2 = Some e
    end
  else
    writes (ServeHTTP m w).1 = ["Streaming unsupported!" +:+ nl]
    /\ (ServeHTTP m w).2 = None.
Proof.
  intros Hs. by_mode m w; try discriminate; cbn [fst snd].
  - observe. by rewrite omap_start_attempt.
  - destruct (writes_readers (process m w)) as (lines & Hw & Hi).
    assert (Hlines : Forall is_line lines).
    { eapply Interleaving_Forall; [done| |]; apply Forall_fmap, Forall_forall; done. }
    exists lines. split; [done|]. split; [done|].
    assert (Hwrites :
      writes ((EReplace <$> Args m) ++ sse_headers ++ start_attempt m w
                ++ readers (process m w) ++ [EWait (command m w)]
                ++ report (Wait_err (p_wait (process m w)))
                ++ [EWrite (sse "close" "Command finished"); EFlush] ++ deferred m)
      = frame <$> (lines ++ error_events (p_wait (process m w)) ++ [CloseEvent])).
    { unfold writes in *. rewrite !omap_app.
      rewrite omap_replace, omap_start_attempt, omap_deferred by done.
      rewrite Hw, !fmap_app. unfold error_events.
      by destruct (Wait_err _). }
    rewrite Hwrites. split_and!; try done.
    + unfold error_events. rewrite <- Wait_err_None.
      by destruct (Wait_err _).
    + unfold error_events. destruct (Wait_err _); simpl; lia.
    + rewrite app_assoc, fmap_app. simpl. apply last_snoc.
    + rewrite !fmap_app, !filter_app.
      rewrite (close_frames_none lines), (close_frames_none (error_events _)).
      * simpl. by rewrite filter_cons_True.
      * unfold error_events. destruct (Wait_err _); by repeat constructor.
      * eapply Forall_impl; [exact Hlines|]. by intros [].
  - by observe.
Qed.

(** ** Errors handed to the host *)




(** ** Cancellation scopes of the launched processes *)









(** * The theorems at concrete triggers *)

(** The scanner yields the lines without their terminators, a last line
    without line feed included. *)
Example Scan_lines :
  Scan ("first" +:+ String CR nl +:+ nl +:+ "last") = ["first"; ""; "last"].
Proof. reflexivity. Qed.

(** [echo hello] in the foreground: status 200 and an object with [status]
    success, the line in [stdout], an empty [stderr] and [exit_code] 0. *)
Example foreground_echo_response :
  status_code (ServeHTTP foreground_echo (world_of hello None)).1 = 200
  /\ encoded (ServeHTTP foreground_echo (world_of hello None)).1
     = [[("status", JString "success"); ("stdout", JString ("hello" +:+ nl));
         ("stderr", JString ""); ("exit_code", JNumber 0)]].
Proof. by vm_compute. Qed.

(** The shell command that prints [out] and [err]: one stderr event, one
    stdout event, no error event, then the close event. *)
Example stream_out_and_err :
  writes (ServeHTTP streamed (world_of out_and_err None)).1
  = frame <$> [StderrLine "err"; StdoutLine "out"; CloseEvent].
Proof. reflexivity. Qed.

Lemma C1_stream_events_witness :
  Stream streamed = true
  /\ writes (ServeHTTP streamed (world_of out_and_err None)).1
     = frame <$> [StderrLine "err"; StdoutLine "out"; CloseEvent]
  /\ exists lines : list Event,
       Interleaving [StdoutLine "out"] [StderrLine "err"] lines
       /\ writes (ServeHTTP streamed (world_of out_and_err None)).1
          = frame <$> (lines ++ [] ++ [CloseEvent]).
Proof.
  split; [reflexivity|]. split; [reflexivity|].
  destruct (C1_stream_events streamed (world_of out_and_err None) eq_refl)
    as (lines & Hi & _ & Hw & _).
  exists lines. split; [exact Hi | exact Hw].
Defined.

Lemma C2_detached_response_witness :
  Stream detached_false = false /\ Foreground detached_false = false
  /\ PassThru detached_false = false
  /\ exists obj : JSONObject,
       encoded (ServeHTTP detached_false (world_of out_and_err (Some "exit status 1"))).1 = [obj]
       /\ status_code (ServeHTTP detached_false (world_of out_and_err (Some "exit status 1"))).1 = 500
       /\ obj = [("error", JString "exit status 1")].
Proof.
  split_and!; try reflexivity.
  destruct (C2_detached_response detached_false (world_of out_and_err (Some "exit status 1"))
              eq_refl eq_refl eq_refl)
    as (obj & Henc & _ & _ & _ & _ & Hst & Hobj & _).
  exists obj. split; [exact Henc|]. split; [exact Hst | exact Hobj].
Defined.

Lemma C3_collected_exit_code_witness :
  Stream collecting = false /\ Foreground collecting = true /\ PassThru collecting = false
  /\ exists (obj : JSONObject) (status : string) (code : Z),
       encoded (ServeHTTP collecting (world_of partial_exit3 None)).1 = [obj]
       /\ field "status" obj = Some (JString status)
       /\ field "exit_code" obj = Some (JNumber code)
       /\ status = "error" /\ code = 3.
Proof.
  split_and!; try reflexivity.
  destruct (C3_collected_exit_code collecting (world_of partial_exit3 None)
              eq_refl eq_refl eq_refl)
    as (obj & status & code & Henc & _ & Hs & Hc & _ & _ & _ & _ & Hexit & _).
  exists obj, status, code.
  destruct (Hexit 3 eq_refl eq_refl) as [H1 H2]; [discriminate|].
  split; [exact Henc|]. split; [exact Hs|]. split; [exact Hc|].
  split; [exact H1 | exact H2].
Defined.



Lemma C6_pass_through_witness :
  Stream passing = false /\ PassThru passing = true
  /\ next_calls (ServeHTTP passing (world_of out_and_err (Some "exit status 1"))).1 = 1%nat
  /\ logs (ServeHTTP passing (world_of out_and_err (Some "exit status 1"))).1
     = ["exit status 1"]
  /\ writes (ServeHTTP passing (world_of out_and_err (Some "exit status 1"))).1 = [].
Proof.
  split; [reflexivity|]. split; [reflexivity|].
  destruct (C6_pass_through passing (world_of out_and_err (Some "exit status 1"))
              eq_refl eq_refl) as (Hn & _ & _ & _ & _ & Hl & _ & Hw & _).
  split; [exact Hn|]. split; [exact Hl | exact Hw].
Defined.

Lemma C7_streaming_unsupported_witness :
  Stream streamed = true /\ flusher no_flusher = false
  /\ status_code (ServeHTTP streamed no_flusher).1 = 500
  /\ launches (ServeHTTP streamed no_flusher).1 = [].
Proof.
  split; [reflexivity|]. split; [reflexivity|].
  destruct (C7_streaming_unsupported streamed no_flusher eq_refl eq_refl)
    as (_ & _ & Hst & _ & _ & Hl & _).
  split; [exact Hst | exact Hl].
Defined.




(** * Further properties of the handler *)

(** ** The two versions of [ServeHTTP] *)

Lemma ServeHTTP_v1_stream m w :
  Stream m = true -> ServeHTTP_v1 m w = ServeHTTP m w.
Proof.
  intros Hs. unfold ServeHTTP_v1, ServeHTTP_v1_body, ServeHTTP, ServeHTTP_body.
  rewrite resolve_spec, !handler_bind_val. by rewrite Hs.
Qed.

Lemma ServeHTTP_v1_passthru m w :
  Stream m = false -> PassThru m = true ->
  ServeHTTP_v1 m w
  = ((EReplace <$> Args m) ++ [ECallRun (repl w <$> Args m)]
       ++ logged (run w m (repl w <$> Args m)) ++ [ECallNext],
     NextError <$> next_ServeHTTP w).
Proof.
  intros Hs Hp. unfold ServeHTTP_v1, ServeHTTP_v1_body.
  rewrite resolve_spec, handler_bind_val. rewrite Hs, Hp. simpl.
  by destruct (run w m _).
Qed.

Lemma ServeHTTP_v1_direct m w :
  Stream m = false -> PassThru m = false ->
  ServeHTTP_v1 m w
  = ((EReplace <$> Args m) ++ [ECallRun (repl w <$> Args m)]
       ++ match run w m (repl w <$> Args m) with
          | None => [EHeaderAdd "content-type" "application/json";
                     EEncode [("status", JString "success")]]
          | Some msg => [EWriteHeader 500;
                         EHeaderAdd "content-type" "application/json";
                         EEncode (omitempty "error" msg)]
          end,
     WriteError <$> encode_err w).
Proof.
  intros Hs Hp. unfold ServeHTTP_v1, ServeHTTP_v1_body.
  rewrite resolve_spec, handler_bind_val. rewrite Hs, Hp. simpl.
  by destruct (run w m _).
Qed.

(** X1: the handler with the foreground mode and the handler before it do
    the same for a trigger (same effects in the same order, same result)
    exactly when the trigger does not take the new collecting path, that is
    unless [Stream] is off, [Foreground] is on and [PassThru] is off.  On that
    path the earlier handler hands the command to the helper [run], the later
    one launches the process itself. *)
Theorem X1_versions_agree (m : Cmd) (w : World) :
  ServeHTTP m w = ServeHTTP_v1 m w
  <-> ~ (Stream m = false /\ Foreground m = true /\ PassThru m = false).
Proof.
  split.
  - intros Heq (Hs & Hf & Hp).
    apply (f_equal (fun o => run_calls o.1)) in Heq.
    rewrite (ServeHTTP_collected m w Hs Hf Hp) in Heq.
    rewrite (ServeHTTP_v1_direct m w Hs Hp) in Heq. cbn [fst] in Heq.
    revert Heq. destruct (cmd_Run _).2, (run w m _); observe; discriminate.
  - intros Hnot. destruct (Stream m) eqn:Hs.
    + symmetry. by apply ServeHTTP_v1_stream.
    + destruct (PassThru m) eqn:Hp.
      * by rewrite (ServeHTTP_passthru m w Hs Hp), (ServeHTTP_v1_passthru m w Hs Hp).
      * destruct (Foreground m) eqn:Hf; [by destruct Hnot|].
        by rewrite (ServeHTTP_detached m w Hs Hf Hp), (ServeHTTP_v1_direct m w Hs Hp).
Qed.

(** ** More about streamed runs *)

Lemma Interleaving_nil_r_inv {A} (a c : list A) : Interleaving a [] c -> c = a.
Proof.
  intros H. remember [] as b eqn:Hb. induction H; simplify_eq; [done|].
  f_equal. by apply IHInterleaving.
Qed.

Lemma Interleaving_nil_l_inv {A} (b c : list A) : Interleaving [] b c -> c = b.
Proof.
  intros H. remember [] as a eqn:Ha. induction H; simplify_eq; [done |].
  f_equal. by apply IHInterleaving.
Qed.

Lemma Interleaving_length {A} (a b c : list A) :
  Interleaving a b c -> length c = (length a + length b)%nat.
Proof. induction 1; simpl; lia. Qed.

(** The frames of a started stream. *)
Lemma writes_started m w :
  Stream m = true -> flusher w = true -> start_failure (process m w) = None ->
  exists lines : list Event,
    Interleaving (StdoutLine <$> Scan (p_stdout (process m w)))
                 (StderrLine <$> Scan (p_stderr (process m w))) lines
    /\ writes (ServeHTTP m w).1
       = frame <$> (lines ++ error_events (p_wait (process m w)) ++ [CloseEvent]).
Proof.
  intros Hs Hf Hst. rewrite (ServeHTTP_started m w Hs Hf Hst). cbn [fst].
  destruct (writes_readers (process m w)) as (lines & Hw & Hi).
  exists lines. split; [done|].
  unfold writes in *. rewrite !omap_app.
  rewrite omap_replace, omap_start_attempt, omap_deferred by done.
  rewrite Hw, !fmap_app. unfold error_events.
  by destruct (Wait_err _).
Qed.

(** The events of a started stream, pipe by pipe. *)
Lemma pipes_in_order (m : Cmd) (w : World) :
  Stream m = true -> flusher w = true -> start_failure (process m w) = None ->
  exists events : list Event,
    writes (ServeHTTP m w).1 = frame <$> events
    /\ omap stdout_text events = Scan (p_stdout (process m w))
    /\ omap stderr_text events = Scan (p_stderr (process m w)).
Proof.
  intros Hs Hf Hst.
  destruct (writes_started m w Hs Hf Hst) as (lines & Hi & Hw).
  eexists. split; [exact Hw|].
  assert (Hout : forall l : list string, omap stdout_text (StdoutLine <$> l) = l)
    by (induction l; simpl; [done | by f_equal]).
  assert (Herr : forall l : list string, omap stderr_text (StderrLine <$> l) = l)
    by (induction l; simpl; [done | by f_equal]).
  assert (Hno1 : forall l : list string, omap stdout_text (StderrLine <$> l) = [])
    by (induction l; simpl; done).
  assert (Hno2 : forall l : list string, omap stderr_text (StdoutLine <$> l) = [])
    by (induction l; simpl; done).
  rewrite !omap_app.
  assert (omap stdout_text (error_events (p_wait (process m w))) = []) as ->
    by (unfold error_events; by destruct (Wait_err _)).
  assert (omap stderr_text (error_events (p_wait (process m w))) = []) as ->
    by (unfold error_events; by destruct (Wait_err _)).
  simpl. rewrite !app_nil_r. split.
  - apply (Interleaving_omap stdout_text) in Hi.
    rewrite Hout, Hno1 in Hi. by apply Interleaving_nil_r_inv in Hi.
  - apply (Interleaving_omap stderr_text) in Hi.
    rewrite Herr, Hno2 in Hi. by apply Interleaving_nil_l_inv in Hi.
Qed.

(** X2: in a started stream each pipe keeps its order: the stdout events,
    in the order in which they are written, carry exactly the lines scanned
    from the stdout pipe, and the stderr events those of the stderr pipe,
    whatever the scheduler does. *)
Theorem X2_order_within_a_pipe (m : Cmd) (w : World) :
  Stream m = true -> flusher w = true -> start_failure (process m w) = None ->
  exists events : list Event,
    writes (ServeHTTP m w).1 = frame <$> events
    /\ omap stdout_text events = Scan (p_stdout (process m w))
    /\ omap stderr_text events = Scan (p_stderr (process m w)).
Proof. apply pipes_in_order. Qed.

Ltac observe_more :=
  unfold flushes, waits, starts, cancels; observe.

Lemma flushes_reader event pipe :
  flushes (reader event pipe) = length (writes (reader event pipe)).
Proof.
  unfold reader, flushes, writes.
  induction (Scan pipe) as [|text l IH]; simpl; [done | by f_equal].
Qed.

Lemma flushes_readers p : flushes (readers p) = length (writes (readers p)).
Proof.
  pose proof (interleave_Interleaving (p_sched p)
                (reader "stdout" (p_stdout p)) (reader "stderr" (p_stderr p))) as Hi.
  unfold flushes, writes, readers.
  rewrite (Interleaving_length _ _ _ (Interleaving_omap _ _ _ _ Hi)).
  rewrite (Interleaving_length _ _ _ (Interleaving_omap _ _ _ _ Hi)).
  fold (flushes (reader "stdout" (p_stdout p))).
  fold (flushes (reader "stderr" (p_stderr p))).
  by rewrite !flushes_reader.
Qed.

(** X3: in a started stream every frame is flushed: the handler flushes as
    often as it writes a frame; the last frame is the close frame, its flush
    follows at once, and after that only the deferred [cancel] runs. *)
Theorem X3_every_frame_flushed (m : Cmd) (w : World) :
  Stream m = true -> flusher w = true -> start_failure (process m w) = None ->
  flushes (ServeHTTP m w).1 = length (writes (ServeHTTP m w).1)
  /\ exists before : Trace,
       (ServeHTTP m w).1
       = before ++ [EWrite (frame CloseEvent); EFlush] ++ deferred m.
Proof.
  intros Hs Hf Hst. rewrite (ServeHTTP_started m w Hs Hf Hst). cbn [fst]. split.
  - unfold flushes, writes. rewrite !omap_app, !length_app.
    rewrite !omap_replace, !omap_start_attempt, !omap_deferred by done.
    fold (flushes (readers (process m w))). fold (writes (readers (process m w))).
    rewrite flushes_readers. by destruct (Wait_err _).
  - eexists. by rewrite !app_assoc.
Qed.

Lemma status_code_no_WriteHeader (t : Trace) :
  Forall (fun e => match e with EWriteHeader _ => False | _ => True end) t ->
  status_code t = 200.
Proof. induction 1 as [|e t He _ IH]; simpl; [done|]. by destruct e. Qed.

Lemma filter_none {A} (P : A -> Prop) `{forall x, Decision (P x)} (l : list A) :
  Forall (fun x => ~ P x) l -> filter P l = [].
Proof.
  induction 1 as [|x l Hx _ IH]; [done|].
  by rewrite filter_cons_False.
Qed.

(** X4: a streamed run on a flusher never calls [WriteHeader].  Once the
    process is started the status is 200, also when the process then fails:
    the failure is only told by the error event.  When the process is not
    started, the handler has done nothing to the response but set the three
    event-stream headers: nothing is written, no status is fixed. *)
Theorem X4_stream_status (m : Cmd) (w : World) :
  Stream m = true -> flusher w = true ->
  Forall (fun e => match e with EWriteHeader _ => False | _ => True end)
         (ServeHTTP m w).1
  /\ match start_failure (process m w) with
     | None => status_code (ServeHTTP m w).1 = 200
     | Some _ =>
         response_effects (ServeHTTP m w).1 = sse_headers
         /\ Forall (fun e => fixes_status e = false) (ServeHTTP m w).1
     end.
Proof.
  intros Hs Hf.
  assert (Hall : Forall (fun e => match e with EWriteHeader _ => False | _ => True end)
                   (ServeHTTP m w).1).
  { by_mode m w; try discriminate; cbn [fst].
    - forall_trace.
    - destruct (Wait_err _); simpl; forall_trace. }
  split; [done|].
  destruct (start_failure (process m w)) as [e|] eqn:Hst.
  - rewrite (ServeHTTP_not_started m w e Hs Hf Hst). cbn [fst]. split.
    + unfold response_effects. rewrite !filter_app.
      rewrite (filter_none _ (EReplace <$> Args m)),
        (filter_none _ (start_attempt m w)), (filter_none _ (deferred m)).
      * by rewrite app_nil_r.
      * apply Forall_deferred. simpl. discriminate.
      * eapply Forall_impl; [apply start_attempt_quiet|]. by intros [].
      * apply Forall_replace. intros; simpl; discriminate.
    + forall_trace.
  - by apply status_code_no_WriteHeader.
Qed.

(** ** The deferred [cancel], the wait and the log *)

Lemma cancels_deferred m : cancels (deferred m) = if 0 <? timeout m then 1%nat else 0%nat.
Proof. unfold deferred. by destruct (0 <? timeout m). Qed.

Lemma last_deferred (t : Trace) m :
  0 < timeout m -> last (t ++ deferred m) = Some ECancel.
Proof.
  intros Ht. unfold deferred. destruct (Z.ltb_spec 0 (timeout m)); [|lia].
  apply last_snoc.
Qed.

(** X5: the deferred [cancel] runs once, as the very last step, on every
    path on which the handler has armed a timeout (a streamed run on a
    flusher and a collected run without [PassThru], with a positive timeout),
    the early returns after a failed pipe or start included; on every other
    path it does not run at all. *)
Theorem X5_cancel_runs_once (m : Cmd) (w : World) :
  cancels (ServeHTTP m w).1
  = (if builds_scope m w && (0 <? timeout m) then 1%nat else 0%nat)
  /\ (builds_scope m w = true -> 0 < timeout m ->
      last (ServeHTTP m w).1 = Some ECancel).
Proof.
  unfold builds_scope.
  by_mode m w; cbn [fst snd negb andb].
  - split.
    + unfold cancels. rewrite !omap_app.
      rewrite omap_replace, omap_start_attempt by done. simpl.
      fold (cancels (deferred m)). apply cancels_deferred.
    + intros _ Ht. rewrite !app_assoc. by apply last_deferred.
  - split.
    + unfold cancels. rewrite !omap_app.
      rewrite omap_replace, omap_start_attempt, omap_readers by done.
      destruct (Wait_err _); simpl; fold (cancels (deferred m));
        apply cancels_deferred.
    + intros _ Ht.
      change [?a; ?b] with ([a] ++ [b]). rewrite !app_assoc.
      by apply last_deferred.
  - split; [by observe_more | done].
  - rewrite andb_false_r. split; [|done].
    destruct (run w m _); by observe_more.
  - split.
    + unfold cancels. rewrite !omap_app. rewrite omap_replace by done.
      destruct (cmd_Run _).2; simpl; fold (cancels (deferred m));
        apply cancels_deferred.
    + intros _ Ht. rewrite !app_assoc. by apply last_deferred.
  - split; [|done]. destruct (run w m _); by observe_more.
Qed.

(** X6: in a started stream the handler waits for the process exactly once,
    after every line frame and before the error and close frames: all the
    lines are written before [cmd.Wait], and what is written after it is the
    error event, if any, and the close event.  A stream that is not started
    and every run that is not streamed never call [cmd.Wait]. *)
Theorem X6_wait_between_lines_and_close (m : Cmd) (w : World) :
  waits (ServeHTTP m w).1
  = (if Stream m && flusher w
        && bool_decide (start_failure (process m w) = None)
     then [command m w] else [])
  /\ (Stream m = true -> flusher w = true ->
      start_failure (process m w) = None ->
      exists (before after : Trace) (lines : list Event),
        (ServeHTTP m w).1 = before ++ [EWait (command m w)] ++ after
        /\ starts before = [command m w]
        /\ writes before = frame <$> lines
        /\ Forall is_line lines
        /\ writes after
           = frame <$> (error_events (p_wait (process m w)) ++ [CloseEvent])).
Proof.
  split.
  - by_mode m w; cbn [fst snd andb].
    + rewrite bool_decide_eq_false_2 by done.
      observe_more. by rewrite omap_start_attempt.
    + rewrite bool_decide_eq_true_2 by done.
      destruct (Wait_err _); observe_more; by rewrite omap_start_attempt.
    + by observe_more.
    + destruct (run w m _); by observe_more.
    + destruct (cmd_Run _).2; by observe_more.
    + destruct (run w m _); by observe_more.
  - intros Hs Hf Hst. rewrite (ServeHTTP_started m w Hs Hf Hst). cbn [fst].
    destruct (writes_readers (process m w)) as (lines & Hw & Hi).
    exists ((EReplace <$> Args m) ++ sse_headers ++ start_attempt m w
              ++ readers (process m w)),
      (report (Wait_err (p_wait (process m w)))
         ++ [EWrite (sse "close" "Command finished"); EFlush] ++ deferred m),
      lines.
    split_and!.
    + by rewrite <- !app_assoc.
    + unfold starts. rewrite !omap_app.
      rewrite omap_replace, omap_readers by done. simpl.
      clear Hw Hi. by cases_of_start m w.
    + unfold writes in *. rewrite !omap_app.
      rewrite omap_replace, omap_start_attempt by done. by rewrite Hw.
    + eapply Interleaving_Forall; [done| |]; apply Forall_fmap, Forall_forall; done.
    + unfold writes, error_events. rewrite !omap_app.
      rewrite omap_deferred by done. by destruct (Wait_err _).
Qed.

Lemma logs_start_attempt m w :
  (length (logs (start_attempt m w)) <= 1)%nat.
Proof. cases_of_start m w; simpl; lia. Qed.

(** X7: the handler logs at most one error for a trigger.  A run that is
    not streamed and has no [PassThru] logs nothing: its error goes to the
    response only.  With [PassThru] the log has an entry exactly when the
    helper [run] failed. *)
Theorem X7_at_most_one_log (m : Cmd) (w : World) :
  (length (logs (ServeHTTP m w).1) <= 1)%nat
  /\ (Stream m = false -> PassThru m = false -> logs (ServeHTTP m w).1 = [])
  /\ (Stream m = false -> PassThru m = true ->
      (logs (ServeHTTP m w).1 = [] <-> run w m (repl w <$> Args m) = None)).
Proof.
  by_mode m w; cbn [fst snd]; split_and!; try done.
  - unfold logs. rewrite !omap_app. rewrite omap_replace, omap_deferred by done.
    simpl. rewrite app_nil_r. apply logs_start_attempt.
  - unfold logs. rewrite !omap_app.
    rewrite omap_replace, omap_deferred, omap_readers by done.
    cases_of_start m w. destruct (Wait_err _); simpl; lia.
  - observe. lia.
  - destruct (run w m _); observe; lia.
  - intros _ _. destruct (run w m _); observe; split; intros; simplify_eq; done.
  - destruct (cmd_Run _).2; observe; lia.
  - intros _ _. by destruct (cmd_Run _).2; observe.
  - destruct (run w m _); observe; lia.
  - intros _ _. by destruct (run w m _); observe.
Qed.

(** ** The JSON responses *)

Lemma committed_skip (a b : Trace) :
  Forall (fun e => on_response e = false) a -> committed (a ++ b) = committed b.
Proof. induction 1 as [|e a He _ IH]; simpl; [done|]. by destruct e. Qed.

(** X8: in the two JSON responses the content type is set after the status
    of a failure.  When the run succeeds, the handler's content-type header
    is in force when the first byte of the body fixes the status 200.  When
    the run fails, [WriteHeader(500)] comes first: no header set by the
    handler is in force for the error response. *)
Theorem X8_content_type_after_status (m : Cmd) (w : World) :
  Stream m = false -> PassThru m = false ->
  committed (ServeHTTP m w).1
  = if Foreground m then
      match (cmd_Run (process m w)).2 with
      | None => [EHeaderSet "Content-Type" "application/json; charset=utf-8"]
      | Some _ => []
      end
    else
      match run w m (repl w <$> Args m) with
      | None => [EHeaderAdd "content-type" "application/json"]
      | Some _ => []
      end.
Proof.
  intros Hs Hp. destruct (Foreground m) eqn:Hf.
  - rewrite (ServeHTTP_collected m w Hs Hf Hp). cbn [fst].
    rewrite committed_skip by by apply Forall_replace.
    by destruct (cmd_Run _).2.
  - rewrite (ServeHTTP_detached m w Hs Hf Hp). cbn [fst].
    rewrite committed_skip by by apply Forall_replace.
    by destruct (run w m _).
Qed.

(** X9: the object of a detached response has one field, [status] or
    [error], except when the helper [run] fails with an empty message: then
    both fields are left out and the object is empty. *)
Theorem X9_detached_object_size (m : Cmd) (w : World) :
  Stream m = false -> Foreground m = false -> PassThru m = false ->
  exists obj : JSONObject,
    encoded (ServeHTTP m w).1 = [obj]
    /\ (length obj <= 1)%nat
    /\ (obj = [] <-> run w m (repl w <$> Args m) = Some "").
Proof.
  intros Hs Hf Hp. rewrite (ServeHTTP_detached m w Hs Hf Hp). cbn [fst].
  destruct (run w m _) as [msg|]; eexists; observe;
    (split; [reflexivity|]).
  - unfold omitempty. destruct (decide (msg = "")) as [->|Hne]; simpl.
    + split; [lia | done].
    + split; [lia|]. split; intros; simplify_eq.
  - simpl. split; [lia|]. split; intros; simplify_eq.
Qed.

(** ** The line scanner of the two readers *)

Lemma append_nil_r (s : string) : s +:+ "" = s.
Proof.
  induction s as [|c s IH]; [done|].
  change (String c s +:+ "") with (String c (s +:+ "")). by rewrite IH.
Qed.

Lemma append_assoc (s t u : string) : (s +:+ t) +:+ u = s +:+ (t +:+ u).
Proof.
  induction s as [|c s IH]; [done|].
  change (String c (s +:+ t) +:+ u = String c (s +:+ (t +:+ u))).
  change (String c ((s +:+ t) +:+ u) = String c (s +:+ (t +:+ u))).
  by rewrite IH.
Qed.

Lemma contains_cons c c' s :
  contains c (String c' s) = false <-> c' <> c /\ contains c s = false.
Proof.
  simpl. destruct (decide (c' = c)) as [Heq|Hne].
  - split; [discriminate | by intros [? _]].
  - split; [by intros ? | by intros [_ ?]].
Qed.

(** Characters that are no line feed go to the line being read. *)
Lemma raw_lines_append acc l rest :
  contains LF l = false ->
  raw_lines acc (l +:+ rest) = raw_lines (acc +:+ l) rest.
Proof.
  revert acc. induction l as [|c l IH]; intros acc Hl.
  - by rewrite append_nil_r.
  - apply contains_cons in Hl as [Hc Hl].
    change (String c l +:+ rest) with (String c (l +:+ rest)). simpl.
    destruct (decide (c = LF)); [done|].
    rewrite IH by done. by rewrite append_assoc.
Qed.

Lemma raw_lines_line acc l rest :
  contains LF l = false ->
  raw_lines acc (l +:+ nl +:+ rest) = (acc +:+ l) :: raw_lines "" rest.
Proof. intros Hl. by rewrite raw_lines_append. Qed.

Lemma raw_lines_unlines ls rest :
  Forall (fun l => contains LF l = false) ls ->
  raw_lines "" (unlines ls +:+ rest) = ls ++ raw_lines "" rest.
Proof.
  induction 1 as [|l ls Hl _ IH]; [done|].
  simpl unlines. rewrite !append_assoc, raw_lines_line by done.
  by rewrite IH.
Qed.

Lemma raw_lines_last tail :
  contains LF tail = false ->
  raw_lines "" tail = if decide (tail = "") then [] else [tail].
Proof.
  intros Ht. rewrite <- (append_nil_r tail) at 1.
  by rewrite raw_lines_append.
Qed.

(** Once a line is being read, it comes out, whatever follows. *)
Lemma raw_lines_head acc s :
  acc <> "" -> exists x tl, raw_lines acc s = (acc +:+ x) :: tl.
Proof.
  revert acc. induction s as [|c s IH]; intros acc Hacc; simpl.
  - destruct (decide (acc = "")); [done|]. exists "", []. by rewrite append_nil_r.
  - destruct (decide (c = LF)).
    + eexists "", _. by rewrite append_nil_r.
    + destruct (IH (acc +:+ String c "")) as (x & tl & ->).
      { by destruct acc. }
      exists (String c x), tl. by rewrite append_assoc.
Qed.

Lemma tokens_app ls tl :
  Forall (fun l => Z.of_nat (String.length l) < MaxScanTokenSize) ls ->
  tokens (ls ++ tl) = (dropCR <$> ls) ++ tokens tl.
Proof.
  induction 1 as [|l ls Hl _ IH]; [done|]. simpl.
  destruct (Z.ltb_spec (Z.of_nat (String.length l)) MaxScanTokenSize); [|lia].
  by rewrite IH.
Qed.

Lemma fits_split ls :
  Forall fits ls ->
  Forall (fun l => contains LF l = false) ls
  /\ Forall (fun l => Z.of_nat (String.length l) < MaxScanTokenSize) ls.
Proof. intros H. split; (eapply Forall_impl; [done|]); by intros l []. Qed.

Lemma Scan_unlines ls tail :
  Forall fits ls -> fits tail ->
  Scan (unlines ls +:+ tail)
  = dropCR <$> (ls ++ if decide (tail = "") then [] else [tail]).
Proof.
  intros Hls [Ht1 Ht2]. destruct (fits_split ls Hls) as [H1 H2].
  unfold Scan. rewrite raw_lines_unlines, raw_lines_last by done.
  rewrite tokens_app, fmap_app by done. f_equal.
  destruct (decide (tail = "")); [done|]. simpl.
  by destruct (Z.ltb_spec (Z.of_nat (String.length tail)) MaxScanTokenSize); [|lia].
Qed.

Lemma dropCR_no_CR l : contains CR l = false -> dropCR l = l.
Proof.
  induction l as [|c l IH]; [done|]. intros Hl.
  apply contains_cons in Hl as [Hc Hl]. simpl.
  destruct l as [|c' l]; [by destruct (decide (c = CR))|].
  by rewrite IH.
Qed.

Lemma dropCR_CR l : dropCR (l +:+ String CR "") = l.
Proof.
  induction l as [|c l IH]; [done|].
  change (String c l +:+ String CR "") with (String c (l +:+ String CR "")).
  simpl. rewrite IH. by destruct l.
Qed.

(** X10: a started stream whose process writes the lines [ls] to stdout, a
    line feed after each, then possibly a last line without line feed, and
    nothing to stderr, delivers one stdout event per line, in order and
    without the terminator (one carriage return before it is dropped too),
    the unterminated last line included; then the error event, if any, and
    the close event.  The lines must fit the scanner: no line feed inside,
    shorter than 64 KiB. *)
Theorem X10_lines_round_trip (m : Cmd) (w : World) (ls : list string) (tail : string) :
  Stream m = true -> flusher w = true -> start_failure (process m w) = None ->
  p_stdout (process m w) = unlines ls +:+ tail ->
  p_stderr (process m w) = "" ->
  Forall fits ls -> fits tail ->
  writes (ServeHTTP m w).1
  = frame <$> ((StdoutLine ∘ dropCR <$> (ls ++ if decide (tail = "") then [] else [tail]))
               ++ error_events (p_wait (process m w)) ++ [CloseEvent]).
Proof.
  intros Hs Hf Hst Hout Herr Hls Htail.
  destruct (writes_started m w Hs Hf Hst) as (lines & Hi & Hw).
  rewrite Hout, Herr, Scan_unlines in Hi by done.
  apply Interleaving_nil_r_inv in Hi. subst lines.
  by rewrite Hw, <- list_fmap_compose.
Qed.

Lemma Scan_crlf (ls : list string) :
  Forall (fun l => fits (l +:+ String CR "")) ls ->
  Scan (unlines ((fun l => l +:+ String CR "") <$> ls)) = ls.
Proof.
  intros Hls.
  rewrite <- (append_nil_r (unlines _)).
  rewrite Scan_unlines.
  - simpl. rewrite app_nil_r, <- list_fmap_compose.
    rewrite <- (list_fmap_id ls) at 2. apply list_fmap_ext. intros _ l _.
    apply dropCR_CR.
  - by apply Forall_fmap.
  - by split.
Qed.

(** X11: a started stream whose process ends its stdout lines with carriage
    return and line feed delivers them like lines that end in a line feed:
    the stdout events carry the lines without either character. *)
Theorem X11_crlf_lines (m : Cmd) (w : World) (ls : list string) :
  Stream m = true -> flusher w = true -> start_failure (process m w) = None ->
  p_stdout (process m w) = unlines ((fun l => l +:+ String CR "") <$> ls) ->
  Forall (fun l => fits (l +:+ String CR "")) ls ->
  exists events : list Event,
    writes (ServeHTTP m w).1 = frame <$> events
    /\ omap stdout_text events = ls.
Proof.
  intros Hs Hf Hst Hout Hls.
  destruct (pipes_in_order m w Hs Hf Hst) as (events & Hw & Ho & _).
  exists events. split; [done|]. by rewrite Ho, Hout, Scan_crlf.
Qed.

Lemma Scan_long_line (ls : list string) (long rest : string) :
  Forall fits ls -> contains LF long = false ->
  MaxScanTokenSize <= Z.of_nat (String.length long) ->
  Scan (unlines ls +:+ long +:+ rest) = dropCR <$> ls.
Proof.
  intros Hls Hlong Hlen. destruct (fits_split ls Hls) as [H1 H2].
  unfold Scan. rewrite raw_lines_unlines by done.
  rewrite raw_lines_append by done.
  destruct (raw_lines_head ("" +:+ long) rest) as (x & tl & ->).
  { destruct long; [|done]. unfold MaxScanTokenSize in Hlen. simpl in Hlen. lia. }
  rewrite tokens_app by done. simpl.
  destruct (Z.ltb_spec (Z.of_nat (String.length (("" +:+ long) +:+ x)))
              MaxScanTokenSize) as [Hlt|_]; [|by rewrite app_nil_r].
  rewrite length_append in Hlt. change ("" +:+ long) with long in Hlt. lia.
Qed.

(** X12: a line of 64 KiB or more stops the reader of its pipe for good: in
    a started stream whose stdout carries the lines [ls], then such a line,
    then anything, the stdout events are those of [ls] and no more; the long
    line and everything after it are never forwarded. *)
Theorem X12_long_line_stops_reader (m : Cmd) (w : World)
    (ls : list string) (long rest : string) :
  Stream m = true -> flusher w = true -> start_failure (process m w) = None ->
  p_stdout (process m w) = unlines ls +:+ long +:+ rest ->
  Forall fits ls -> contains LF long = false ->
  MaxScanTokenSize <= Z.of_nat (String.length long) ->
  exists events : list Event,
    writes (ServeHTTP m w).1 = frame <$> events
    /\ omap stdout_text events = dropCR <$> ls.
Proof.
  intros Hs Hf Hst Hout Hls Hlong Hlen.
  destruct (pipes_in_order m w Hs Hf Hst) as (events & Hw & Ho & _).
  exists events. split; [done|]. by rewrite Ho, Hout, Scan_long_line.
Qed.








(** ** More about runs that are not streamed *)

(** X14: in a collected run the status line agrees with the JSON object:
    status 200 goes with [status] "success" and no [error] field; status 500
    goes with [status] "error", and the [error] field then carries the
    message of the error of [cmd.Run], unless that message is empty. *)
Theorem X14_collected_status_line (m : Cmd) (w : World) :
  Stream m = false -> Foreground m = true -> PassThru m = false ->
  exists obj : JSONObject,
    encoded (ServeHTTP m w).1 = [obj]
    /\ match (cmd_Run (process m w)).2 with
       | None =>
           status_code (ServeHTTP m w).1 = 200
           /\ field "status" obj = Some (JString "success")
           /\ field "error" obj = None
       | Some e =>
           status_code (ServeHTTP m w).1 = 500
           /\ field "status" obj = Some (JString "error")
           /\ (Error_ e <> "" -> field "error" obj = Some (JString (Error_ e)))
       end.
Proof.
  intros Hs Hf Hp. rewrite (ServeHTTP_collected m w Hs Hf Hp). cbn [fst].
  rewrite !status_code_replace.
  destruct (OutputResp_fields (collected (process m w)))
    as (Hstatus & _ & _ & _ & Herror).
  exists (OutputResp_json (collected (process m w))).
  rewrite Hstatus, Herror. unfold collected.
  destruct (cmd_Run (process m w)) as [[out err] [e|]]; cbn [snd].
  - split; [by observe|]. split; [done|].
    destruct e; simpl; (split; [done|]); intros Hne; by rewrite decide_False.
  - split; [by observe|]. by split_and!.
Qed.

Ltac not_a_stream_header :=
  let H := fresh "Hin" in
  simpl; intros H;
  repeat (apply elem_of_cons in H as [H|H]; [discriminate|]);
  by apply elem_of_nil in H.

Ltac no_stream_effects :=
  repeat first
    [ apply Forall_nil_2
    | apply Forall_cons_2; [not_a_stream_header|]
    | apply Forall_app_2
    | apply Forall_replace; intros; not_a_stream_header
    | apply Forall_deferred; not_a_stream_header ].

(** X15: a run that is not streamed has nothing of the event stream: it
    writes no frame, never flushes, asks for no pipe, never calls
    [cmd.Start] or [cmd.Wait], and sets none of the three event-stream
    headers. *)
Theorem X15_no_stream_without_Stream (m : Cmd) (w : World) :
  Stream m = false ->
  writes (ServeHTTP m w).1 = []
  /\ flushes (ServeHTTP m w).1 = 0%nat
  /\ starts (ServeHTTP m w).1 = []
  /\ waits (ServeHTTP m w).1 = []
  /\ Forall (fun e => match e with
                      | EStdoutPipe _ | EStderrPipe _ => False
                      | _ => e ∉ sse_headers
                      end) (ServeHTTP m w).1.
Proof.
  intros Hs.
  by_mode m w; try discriminate; cbn [fst].
  - destruct (run w m _); (split_and!; [by observe_more..|]); no_stream_effects.
  - destruct (cmd_Run _).2; (split_and!; [by observe_more..|]); no_stream_effects.
  - destruct (run w m _); (split_and!; [by observe_more..|]); no_stream_effects.
Qed.

(** ** The further properties at concrete triggers *)

Lemma X2_order_within_a_pipe_witness :
  Stream streamed = true /\ flusher (world_of out_and_err None) = true
  /\ start_failure (process streamed (world_of out_and_err None)) = None
  /\ exists events : list Event,
       writes (ServeHTTP streamed (world_of out_and_err None)).1 = frame <$> events
       /\ omap stdout_text events = ["out"]
       /\ omap stderr_text events = ["err"].
Proof.
  split; [reflexivity|]. split; [reflexivity|]. split; [reflexivity|].
  exact (X2_order_within_a_pipe streamed (world_of out_and_err None)
           eq_refl eq_refl eq_refl).
Defined.

Lemma X3_every_frame_flushed_witness :
  Stream streamed = true /\ flusher (world_of out_and_err None) = true
  /\ start_failure (process streamed (world_of out_and_err None)) = None
  /\ flushes (ServeHTTP streamed (world_of out_and_err None)).1
     = length (writes (ServeHTTP streamed (world_of out_and_err None)).1).
Proof.
  split; [reflexivity|]. split; [reflexivity|]. split; [reflexivity|].
  exact (proj1 (X3_every_frame_flushed streamed (world_of out_and_err None)
                  eq_refl eq_refl eq_refl)).
Defined.

Lemma X4_stream_status_witness :
  Stream streamed = true /\ flusher (world_of partial_exit3 None) = true
  /\ p_wait (process streamed (world_of partial_exit3 None)) = Completed (Exited 3)
  /\ status_code (ServeHTTP streamed (world_of partial_exit3 None)).1 = 200.
Proof.
  split; [reflexivity|]. split; [reflexivity|]. split; [reflexivity|].
  exact (proj2 (X4_stream_status streamed (world_of partial_exit3 None)
                  eq_refl eq_refl)).
Defined.

Lemma X5_cancel_runs_once_witness :
  builds_scope stream_missing start_fails = true
  /\ cancels (ServeHTTP stream_missing start_fails).1 = 0%nat
  /\ builds_scope streamed (world_of out_and_err None) = true
  /\ 0 < timeout streamed
  /\ cancels (ServeHTTP streamed (world_of out_and_err None)).1 = 1%nat
  /\ last (ServeHTTP streamed (world_of out_and_err None)).1 = Some ECancel.
Proof.
  split; [reflexivity|].
  split; [exact (proj1 (X5_cancel_runs_once stream_missing start_fails))|].
  split; [reflexivity|]. split; [reflexivity|].
  split; [exact (proj1 (X5_cancel_runs_once streamed (world_of out_and_err None)))|].
  exact (proj2 (X5_cancel_runs_once streamed (world_of out_and_err None))
           eq_refl eq_refl).
Defined.

Lemma X6_wait_between_lines_and_close_witness :
  Stream streamed = true /\ flusher (world_of partial_exit3 None) = true
  /\ start_failure (process streamed (world_of partial_exit3 None)) = None
  /\ exists (before after : Trace) (lines : list Event),
       (ServeHTTP streamed (world_of partial_exit3 None)).1
       = before ++ [EWait (command streamed (world_of partial_exit3 None))] ++ after
       /\ writes before = frame <$> lines
       /\ writes after = frame <$> [ErrorEvent "exit status 3"; CloseEvent].
Proof.
  split; [reflexivity|]. split; [reflexivity|]. split; [reflexivity|].
  destruct (proj2 (X6_wait_between_lines_and_close streamed
                     (world_of partial_exit3 None)) eq_refl eq_refl eq_refl)
    as (before & after & lines & Ht & _ & Hb & _ & Ha).
  exists before, after, lines. split; [exact Ht|]. split; [exact Hb | exact Ha].
Defined.

Lemma X7_at_most_one_log_witness :
  Stream collecting = false /\ PassThru collecting = false
  /\ (cmd_Run (process collecting (world_of partial_exit3 None))).2
     = Some (ExitError (Exited 3))
  /\ logs (ServeHTTP collecting (world_of partial_exit3 None)).1 = [].
Proof.
  split; [reflexivity|]. split; [reflexivity|]. split; [reflexivity|].
  destruct (X7_at_most_one_log collecting (world_of partial_exit3 None))
    as (_ & Hnone & _).
  exact (Hnone eq_refl eq_refl).
Defined.

Lemma X8_content_type_after_status_witness :
  Stream collecting = false /\ PassThru collecting = false
  /\ status_code (ServeHTTP collecting (world_of partial_exit3 None)).1 = 500
  /\ committed (ServeHTTP collecting (world_of partial_exit3 None)).1 = []
  /\ committed (ServeHTTP collecting (world_of hello None)).1
     = [EHeaderSet "Content-Type" "application/json; charset=utf-8"].
Proof.
  split; [reflexivity|]. split; [reflexivity|]. split; [reflexivity|].
  split.
  - exact (X8_content_type_after_status collecting (world_of partial_exit3 None)
             eq_refl eq_refl).
  - exact (X8_content_type_after_status collecting (world_of hello None)
             eq_refl eq_refl).
Defined.

Lemma X9_detached_object_size_witness :
  Stream detached_false = false /\ Foreground detached_false = false
  /\ PassThru detached_false = false
  /\ exists obj : JSONObject,
       encoded (ServeHTTP detached_false (world_of hello (Some ""))).1 = [obj]
       /\ obj = [].
Proof.
  split; [reflexivity|]. split; [reflexivity|]. split; [reflexivity|].
  destruct (X9_detached_object_size detached_false (world_of hello (Some ""))
              eq_refl eq_refl eq_refl) as (obj & Henc & _ & Hempty).
  exists obj. split; [exact Henc|]. exact (proj2 Hempty eq_refl).
Defined.

Lemma X10_lines_round_trip_witness :
  Stream streamed = true /\ flusher (world_of three_lines None) = true
  /\ start_failure (process streamed (world_of three_lines None)) = None
  /\ Forall fits ["one"; "two"] /\ fits "three"
  /\ writes (ServeHTTP streamed (world_of three_lines None)).1
     = frame <$> [StdoutLine "one"; StdoutLine "two"; StdoutLine "three"; CloseEvent].
Proof.
  assert (Hfits : forall l, contains LF l = false ->
                            (Z.of_nat (String.length l) <? MaxScanTokenSize) = true ->
                            fits l).
  { intros l H1 H2. split; [exact H1|]. apply Z.ltb_lt, H2. }
  assert (H12 : Forall fits ["one"; "two"]).
  { repeat constructor; apply Hfits; reflexivity. }
  assert (H3 : fits "three") by (apply Hfits; reflexivity).
  split; [reflexivity|]. split; [reflexivity|]. split; [reflexivity|].
  split; [exact H12|]. split; [exact H3|].
  exact (X10_lines_round_trip streamed (world_of three_lines None)
           ["one"; "two"] "three" eq_refl eq_refl eq_refl eq_refl eq_refl H12 H3).
Defined.

Lemma X11_crlf_lines_witness :
  Stream streamed = true /\ flusher (world_of crlf_lines None) = true
  /\ start_failure (process streamed (world_of crlf_lines None)) = None
  /\ Forall (fun l => fits (l +:+ String CR "")) ["GET /"; ""]
  /\ exists events : list Event,
       writes (ServeHTTP streamed (world_of crlf_lines None)).1 = frame <$> events
       /\ omap stdout_text events = ["GET /"; ""].
Proof.
  assert (H : Forall (fun l => fits (l +:+ String CR "")) ["GET /"; ""]).
  { repeat constructor. }
  split; [reflexivity|]. split; [reflexivity|]. split; [reflexivity|].
  split; [exact H|].
  exact (X11_crlf_lines streamed (world_of crlf_lines None) ["GET /"; ""]
           eq_refl eq_refl eq_refl eq_refl H).
Defined.

Lemma X12_long_line_stops_reader_witness :
  Stream streamed = true /\ flusher (world_of with_long_line None) = true
  /\ start_failure (process streamed (world_of with_long_line None)) = None
  /\ Forall fits ["ok"] /\ contains LF long_line = false
  /\ MaxScanTokenSize <= Z.of_nat (String.length long_line)
  /\ exists events : list Event,
       writes (ServeHTTP streamed (world_of with_long_line None)).1 = frame <$> events
       /\ omap stdout_text events = ["ok"].
Proof.
  assert (H1 : Forall fits ["ok"]).
  { repeat constructor. }
  assert (H2 : contains LF long_line = false) by (vm_compute; reflexivity).
  assert (H3 : MaxScanTokenSize <= Z.of_nat (String.length long_line)).
  { apply Z.leb_le. vm_compute. reflexivity. }
  split; [reflexivity|]. split; [reflexivity|]. split; [reflexivity|].
  split; [exact H1|]. split; [exact H2|]. split; [exact H3|].
  exact (X12_long_line_stops_reader streamed (world_of with_long_line None)
           ["ok"] long_line (nl +:+ "lost" +:+ nl)
           eq_refl eq_refl eq_refl eq_refl H1 H2 H3).
Defined.


Lemma X14_collected_status_line_witness :
  Stream collecting = false /\ Foreground collecting = true /\ PassThru collecting = false
  /\ exists obj : JSONObject,
       encoded (ServeHTTP collecting (world_of partial_exit3 None)).1 = [obj]
       /\ status_code (ServeHTTP collecting (world_of partial_exit3 None)).1 = 500
       /\ field "status" obj = Some (JString "error")
       /\ field "error" obj = Some (JString "exit status 3").
Proof.
  split; [reflexivity|]. split; [reflexivity|]. split; [reflexivity|].
  destruct (X14_collected_status_line collecting (world_of partial_exit3 None)
              eq_refl eq_refl eq_refl) as (obj & Henc & Hst & Hstatus & Herr).
  exists obj. split; [exact Henc|]. split; [exact Hst|]. split; [exact Hstatus|].
  apply Herr. discriminate.
Defined.

Lemma X15_no_stream_without_Stream_witness :
  Stream collecting = false
  /\ writes (ServeHTTP collecting (world_of partial_exit3 None)).1 = []
  /\ flushes (ServeHTTP collecting (world_of partial_exit3 None)).1 = 0%nat.
Proof.
  split; [reflexivity|].
  destruct (X15_no_stream_without_Stream collecting (world_of partial_exit3 None)
              eq_refl) as (Hw & Hf & _).
  split; [exact Hw | exact Hf].
Defined.
